(** * Payment holds service (app.py): data model, handlers, and their properties

    The service is a FastAPI application over a PostgreSQL store.  Every
    handler is a short sequence of SQL statements run in one session, with
    HTTP errors raised as exceptions.  The embedding keeps that shape:

    - the pydantic models and the [payment_hold] row are records;
    - a handler is a program of the free monad [Prog], whose events are the
      effects the Python code performs: reading the clock ([_now]), decoding
      a token ([jwt.decode]), executing a SQL statement
      ([session.execute]) and committing ([session.commit]);
    - [run] interprets a program against the database, statement by
      statement, optionally letting other sessions commit between two
      statements of this one. *)

From Stdlib Require Import ZArith.
From stdpp Require Import base decidable option list sorting strings gmap.

Local Open Scope string_scope.
Local Open Scope list_scope.
Local Open Scope Z_scope.

(** ** Data model *)

(** UUIDs are 128-bit numbers; only their equality is observed. *)
Abbreviation UUID := N.

(** A [datetime] is a timezone-aware instant (as [_now()] returns and as a
    [timestamptz] column stores), counted in microseconds since the epoch. *)
Abbreviation datetime := Z.

(** A datetime as a request body carries it.  pydantic accepts a timestamp
    with an offset ([aware]: an instant) and one without ([naive]: a
    wall-clock reading that names no zone). *)
Inductive py_datetime :=
| aware (instant : datetime)
| naive (wall_clock : Z).

Module Principal.
Record t := mk { sub : string; roles : list string }.
End Principal.

Module CreateHoldBody.
Record t := mk {
  type : string;
  comment : option string;
  source : option string;
  expiresAt : option py_datetime
}.
End CreateHoldBody.

Module ReleaseBody.
Record t := mk { reason : option string; comment : option string }.
End ReleaseBody.

Module HoldModel.
Record t := mk {
  holdId : UUID;
  clientId : UUID;
  type : string;
  status : string;
  comment : option string;
  source : option string;
  createdAt : datetime;
  createdBy : string;
  expiresAt : option py_datetime;
  releasedAt : option datetime;
  releasedBy : option string;
  releaseReason : option string;
  idempotencyKey : string
}.
End HoldModel.

(** A row of the [payment_hold] table, with the column names the SQL uses. *)
Module Row.
Record t := mk {
  hold_id : UUID;
  client_id : UUID;
  type : string;
  status : string;
  comment : option string;
  source : option string;
  created_at : datetime;
  created_by : string;
  expires_at : option py_datetime;
  released_at : option datetime;
  released_by : option string;
  release_reason : option string;
  idempotency_key : string
}.
End Row.

Module ListResponse.
Record t := mk { items : list HoldModel.t }.
End ListResponse.

Module CheckResponse.
Record t := mk {
  blocked : bool;
  kind : string;
  activeHolds : list HoldModel.t
}.
End CheckResponse.

(** The claims of a decoded token that the service reads.  Each may be
    absent; when present it has the type the issuer (scripts/jwt_gen.py,
    [make(sub: str, roles: list[str])]) gives it, so that [str(...)] of the
    subject is the subject itself. *)
Module Payload.
Record t := mk { sub : option string; roles : option (list string) }.
End Payload.

Module HTTPAuthorizationCredentials.
Record t := mk { scheme : string; credentials : string }.
End HTTPAuthorizationCredentials.

(** The two tables. *)
Record DB := mkDB {
  client : list UUID;
  payment_hold : list Row.t
}.

(** ** Exceptions *)

(** Modelled from the spec: the schema of [payment_hold] is created outside
    app.py; the spec gives it a key on [holdId], a foreign key to [client]
    and a unique constraint on [idempotencyKey]. *)
Inductive Constraint :=
| payment_hold_pkey
| payment_hold_client_fkey
| payment_hold_idempotency_key_key.

Inductive Exception :=
| HTTPException (status_code : Z) (detail : string)
| IntegrityError (violated : Constraint)
| TypeError.

(** ** SQL statements

    One constructor per [text(...)] statement of app.py, carrying its bound
    parameters and indexed by the type of the rows it yields. *)
Inductive Query : Type → Type :=
| q_exists (cid : UUID) : Query (list Z)
| q_idem (ik : string) : Query (list Row.t)
| q_ins (client_id : UUID) (type : string) (comment source : option string)
    (created_by : string) (expires_at : option py_datetime) (ik : string)
  : Query (list Row.t)
| q_list_all (cid : UUID) : Query (list Row.t)
| q_list (cid : UUID) (st : string) : Query (list Row.t)
| q_check (cid : UUID) : Query (list Row.t)
| q_get (cid hid : UUID) : Query (list Row.t)
| q_sel (cid hid : UUID) : Query (list Row.t)
| q_upd (hid : UUID) (reason : option string) (by_ : string)
  : Query (list Row.t).

(** What a request finds outside the program: the application clock, the
    database clock ([now()] in SQL), the identifier the database generates
    for an inserted row, the outcome of [jwt.decode] on a token under the
    process's [JWT_SECRET] ([None] when it raises [PyJWTError]), and the
    order in which the database hands out the rows a SELECT has picked when
    the statement does not fix it: some rearrangement of them. *)
Record Env := mkEnv {
  clock : datetime;
  db_clock : datetime;
  uuid_generate : UUID;
  jwt_decode : string → list string → option Payload.t;
  scan : list Row.t → list Row.t;
  scan_permutation : ∀ rows, scan rows ≡ₚ rows
}.

(** [ORDER BY created_at DESC]: [a] may come before [b] when [a] is not
    older than [b].  Rows of equal [created_at] stay in the order the
    database scanned them. *)
Definition created_at_desc (a b : Row.t) : Prop :=
  Row.created_at b ≤ Row.created_at a.

Global Instance created_at_desc_dec a b : Decision (created_at_desc a b).
Proof. unfold created_at_desc. apply _. Defined.

Definition order_by_created_at_desc (rows : list Row.t) : list Row.t :=
  merge_sort created_at_desc rows.

Definition release_row (now : datetime) (by_ : string)
    (reason : option string) (r : Row.t) : Row.t :=
  Row.mk (Row.hold_id r) (Row.client_id r) (Row.type r) "RELEASED"
    (Row.comment r) (Row.source r) (Row.created_at r) (Row.created_by r)
    (Row.expires_at r) (Some now) (Some by_) reason (Row.idempotency_key r).

(** Modelled from the spec: the column defaults of [payment_hold] (a
    generated [hold_id], [created_at] set at creation, the three release
    columns null until release) are part of the absent schema. *)
Definition new_row (env : Env) (client_id : UUID) (type : string)
    (comment source : option string) (created_by : string)
    (expires_at : option py_datetime) (ik : string) : Row.t :=
  Row.mk (uuid_generate env) client_id type "ACTIVE" comment source
    (db_clock env) created_by expires_at None None None ik.

(** One statement against the database: the rows it yields and the database
    after it, or the error the database raises.  The statements that can
    select several rows hand them out in the order [scan env] gives them:
    [q_check] has no ORDER BY at all, and the two listings order by
    [created_at] only.  The others select by a key. *)
Definition execute_query {X} (env : Env) (q : Query X) (db : DB)
    : Exception + (X * DB) :=
  match q in Query X return Exception + (X * DB) with
  | q_exists cid =>
      inr ((λ _, 1) <$> filter (λ c, c = cid) (client db), db)
  | q_idem ik =>
      inr (take 1 (filter (λ r, Row.idempotency_key r = ik) (payment_hold db)), db)
  | q_ins client_id type comment source created_by expires_at ik =>
      let r := new_row env client_id type comment source created_by expires_at ik in
      if bool_decide (Row.hold_id r ∈ Row.hold_id <$> payment_hold db)
      then inl (IntegrityError payment_hold_pkey)
      else if bool_decide (ik ∈ Row.idempotency_key <$> payment_hold db)
      then inl (IntegrityError payment_hold_idempotency_key_key)
      else if bool_decide (client_id ∉ client db)
      then inl (IntegrityError payment_hold_client_fkey)
      else inr ([r], mkDB (client db) (payment_hold db ++ [r]))
  | q_list_all cid =>
      inr (order_by_created_at_desc
             (scan env (filter (λ r, Row.client_id r = cid) (payment_hold db))),
           db)
  | q_list cid st =>
      inr (order_by_created_at_desc
             (scan env (filter (λ r, Row.client_id r = cid ∧ Row.status r = st)
                          (payment_hold db))),
           db)
  | q_check cid =>
      inr (scan env (filter (λ r, Row.client_id r = cid ∧ Row.status r = "ACTIVE")
                       (payment_hold db)),
           db)
  | q_get cid hid | q_sel cid hid =>
      inr (filter (λ r, Row.client_id r = cid ∧ Row.hold_id r = hid)
             (payment_hold db), db)
  | q_upd hid reason by_ =>
      let upd r :=
        if bool_decide (Row.hold_id r = hid)
        then release_row (db_clock env) by_ reason r else r in
      let rows := upd <$> payment_hold db in
      inr (filter (λ r, Row.hold_id r = hid) rows, mkDB (client db) rows)
  end.

(** ** Handler programs *)

Inductive Prog (A : Type) : Type :=
| Return (a : A)
| Raise (e : Exception)
| Now (k : datetime → Prog A)
| JwtDecode (token : string) (algorithms : list string)
    (k : option Payload.t → Prog A)
| Execute {X : Type} (q : Query X) (k : X → Prog A)
| Commit (k : Prog A).

Arguments Return {A} a.
Arguments Raise {A} e.
Arguments Now {A} k.
Arguments JwtDecode {A} token algorithms k.
Arguments Execute {A X} q k.
Arguments Commit {A} k.

Fixpoint bind {A B} (p : Prog A) (f : A → Prog B) : Prog B :=
  match p with
  | Return a => f a
  | Raise e => Raise e
  | Now k => Now (λ t, bind (k t) f)
  | JwtDecode token algorithms k =>
      JwtDecode token algorithms (λ r, bind (k r) f)
  | Execute q k => Execute q (λ x, bind (k x) f)
  | Commit k => Commit (bind k f)
  end.

Global Instance Prog_ret : MRet Prog := @Return.
Global Instance Prog_bind : MBind Prog := λ A B f p, bind p f.

Definition _now : Prog datetime := Now Return.

Module jwt.
Definition decode (token : string) (algorithms : list string)
    : Prog (option Payload.t) :=
  JwtDecode token algorithms Return.
End jwt.

Definition execute {X} (q : Query X) : Prog X := Execute q Return.
Definition commit : Prog unit := Commit (Return tt).

(** [res.scalar()] and [res.mappings().first()]: the first row, if any. *)
Definition scalar {X} (res : list X) : option X := head res.
Definition first {X} (res : list X) : option X := head res.

(** [run p env others committed working] runs [p] in a session whose view of
    the database is [working] while other sessions see [committed].  Before
    each statement the head of [others] is applied: it stands for what other
    sessions committed since the previous statement.  A program that ends
    without committing leaves no trace (the session rolls back). *)
Fixpoint run {A} (p : Prog A) (env : Env) (others : list (DB → DB))
    (committed working : DB) : (Exception + A) * DB :=
  match p with
  | Return a => (inr a, committed)
  | Raise e => (inl e, committed)
  | Now k => run (k (clock env)) env others committed working
  | JwtDecode token algorithms k =>
      run (k (jwt_decode env token algorithms)) env others committed working
  | Execute q k =>
      let f := default id (head others) in
      match execute_query env q (f working) with
      | inl e => (inl e, f committed)
      | inr (x, working') => run (k x) env (tail others) (f committed) working'
      end
  | Commit k => run k env others working working
  end.

(** A request served with no other session active. *)
Definition serve {A} (p : Prog A) (env : Env) (db : DB) : (Exception + A) * DB :=
  run p env [] db db.

(** ** Authentication and authorization (app.py, lines 19-44) *)

Definition JWT_ALG : string := "HS256".

Definition get_principal (token : option HTTPAuthorizationCredentials.t)
    : Prog Principal.t :=
  match token with
  | None => Raise (HTTPException 401 "Missing bearer token")
  | Some token =>
      decoded ← jwt.decode (HTTPAuthorizationCredentials.credentials token) [JWT_ALG];
      match decoded with
      | None => Raise (HTTPException 401 "Invalid token")
      | Some payload =>
          Return (Principal.mk
                    (default "unknown" (Payload.sub payload))
                    (default [] (Payload.roles payload)))
      end
  end.

(** [any(r in principal.roles for r in required)] *)
Definition any_role (required : list string) (principal : Principal.t) : bool :=
  existsb (λ r, bool_decide (r ∈ Principal.roles principal)) required.

(** [require_roles] with its required roles is the dependency [checker],
    itself depending on [get_principal]. *)
Definition require_roles (required : list string)
    (token : option HTTPAuthorizationCredentials.t) : Prog Principal.t :=
  principal ← get_principal token;
  if negb (any_role required principal)
  then Raise (HTTPException 403 "Forbidden: insufficient role")
  else Return principal.

(** ** Handlers (app.py, lines 86-222) *)

(** [a <= b] on datetimes, for an aware [b]: Python refuses to compare a
    naive datetime with an aware one and raises [TypeError]. *)
Definition datetime_le (a : py_datetime) (b : datetime) : Exception + bool :=
  match a with
  | aware instant => inr (bool_decide (instant ≤ b))
  | naive _ => inl TypeError
  end.

Definition _row_to_hold (m : Row.t) : HoldModel.t :=
  HoldModel.mk (Row.hold_id m) (Row.client_id m) (Row.type m) (Row.status m)
    (Row.comment m) (Row.source m) (Row.created_at m) (Row.created_by m)
    (Row.expires_at m) (Row.released_at m) (Row.released_by m)
    (Row.release_reason m) (Row.idempotency_key m).

(** [_row_to_hold(r.mappings().first())]: subscripting [None] raises. *)
Definition _row_to_hold_first (r : list Row.t) : Prog HoldModel.t :=
  match first r with
  | Some m => Return (_row_to_hold m)
  | None => Raise TypeError
  end.

Definition create_hold (clientId : UUID) (body : CreateHoldBody.t)
    (idempotency_key : string) (principal : Principal.t) : Prog HoldModel.t :=
  past ← match CreateHoldBody.expiresAt body with
         | Some expiresAt =>
             now ← _now;
             match datetime_le expiresAt now with
             | inr past => Return past
             | inl e => Raise e
             end
         | None => Return false
         end;
  if (past : bool)
  then Raise (HTTPException 422 "expiresAt must be in future")
  else
    res ← execute (q_exists clientId);
    match scalar res with
    | None => Raise (HTTPException 422 "Client does not exist")
    | Some _ =>
        found ← execute (q_idem idempotency_key);
        match first found with
        | Some row => Return (_row_to_hold row)
        | None =>
            r ← execute (q_ins clientId (CreateHoldBody.type body)
                           (CreateHoldBody.comment body)
                           (CreateHoldBody.source body)
                           (Principal.sub principal)
                           (CreateHoldBody.expiresAt body)
                           idempotency_key);
            _ ← commit;
            _row_to_hold_first r
        end
    end.

Definition list_holds (clientId : UUID) (status : string)
    (principal : Principal.t) : Prog ListResponse.t :=
  res ← (if bool_decide (status = "ALL")
         then execute (q_list_all clientId)
         else execute (q_list clientId status));
  Return (ListResponse.mk (_row_to_hold <$> res)).

Definition check_hold (clientId : UUID) (principal : Principal.t)
    : Prog CheckResponse.t :=
  rows ← execute (q_check clientId);
  let blocked := bool_decide (0 < length rows)%nat in
  let kind :=
    if blocked
    then
      let types : gset string := list_to_set (Row.type <$> rows) in
      if bool_decide ("FRAUD_SUSPECT" ∈ types) then "FRAUD" else "NON_FRAUD"
    else "NONE" in
  Return (CheckResponse.mk blocked kind (_row_to_hold <$> rows)).

Definition get_hold (clientId holdId : UUID) (principal : Principal.t)
    : Prog HoldModel.t :=
  found ← execute (q_get clientId holdId);
  match first found with
  | None => Raise (HTTPException 404 "Not found")
  | Some row => Return (_row_to_hold row)
  end.

Definition release_hold (clientId holdId : UUID) (body : option ReleaseBody.t)
    (principal : Principal.t) : Prog HoldModel.t :=
  found ← execute (q_sel clientId holdId);
  match first found with
  | None => Raise (HTTPException 404 "Not found")
  | Some row =>
      if bool_decide (Row.status row ≠ "ACTIVE")
      then Raise (HTTPException 409 "Already closed")
      else
        r ← execute (q_upd holdId
                       (match body with
                        | Some body => ReleaseBody.reason body
                        | None => None
                        end)
                       (Principal.sub principal));
        _ ← commit;
        _row_to_hold_first r
  end.

(** ** Routes: a handler behind its [Depends(require_roles(...))] *)

Definition route_create_hold (token : option HTTPAuthorizationCredentials.t)
    (clientId : UUID) (body : CreateHoldBody.t) (idempotency_key : string)
    : Prog HoldModel.t :=
  principal ← require_roles ["ops.block:create"] token;
  create_hold clientId body idempotency_key principal.

Definition route_list_holds (token : option HTTPAuthorizationCredentials.t)
    (clientId : UUID) (status : string) : Prog ListResponse.t :=
  principal ← require_roles ["ops.block:read"] token;
  list_holds clientId status principal.

Definition route_check_hold (token : option HTTPAuthorizationCredentials.t)
    (clientId : UUID) : Prog CheckResponse.t :=
  principal ← require_roles ["ops.block:read"] token;
  check_hold clientId principal.

Definition route_get_hold (token : option HTTPAuthorizationCredentials.t)
    (clientId holdId : UUID) : Prog HoldModel.t :=
  principal ← require_roles ["ops.block:read"] token;
  get_hold clientId holdId principal.

Definition route_release_hold (token : option HTTPAuthorizationCredentials.t)
    (clientId holdId : UUID) (body : option ReleaseBody.t) : Prog HoldModel.t :=
  principal ← require_roles ["ops.block:release"] token;
  release_hold clientId holdId body principal.

(** ** Constraints and reachable databases *)

(** The key and the unique constraint of [payment_hold]. *)
Definition unique_hold_ids (db : DB) : Prop :=
  NoDup (Row.hold_id <$> payment_hold db).

Definition unique_idempotency_keys (db : DB) : Prop :=
  NoDup (Row.idempotency_key <$> payment_hold db).

(** The databases the two mutating handlers can produce, starting from an
    empty [payment_hold] table. *)
Inductive reachable : DB → Prop :=
| reachable_empty clients :
    reachable (mkDB clients [])
| reachable_create db env clientId body idempotency_key principal :
    reachable db →
    reachable (serve (create_hold clientId body idempotency_key principal) env db).2
| reachable_release db env clientId holdId body principal :
    reachable db →
    reachable (serve (release_hold clientId holdId body principal) env db).2.

(** [later db db']: [db'] is [db] after any number of further creates and
    releases, each served on its own. *)
Inductive later (db : DB) : DB → Prop :=
| later_now :
    later db db
| later_create db' env clientId body idempotency_key principal :
    later db db' →
    later db (serve (create_hold clientId body idempotency_key principal) env db').2
| later_release db' env clientId holdId body principal :
    later db db' →
    later db (serve (release_hold clientId holdId body principal) env db').2.

(** The first validation step of [create_hold] passes: a present
    [expiresAt] is an instant strictly after the clock. *)
Definition expiry_in_future (env : Env) (body : CreateHoldBody.t) : Prop :=
  ∀ e, CreateHoldBody.expiresAt body = Some e →
       ∃ instant, e = aware instant ∧ clock env < instant.

(** [body.reason if body else None] *)
Definition reason_of (body : option ReleaseBody.t) : option string :=
  match body with
  | Some body => ReleaseBody.reason body
  | None => None
  end.

(** A row is either ACTIVE with the three release columns null, or RELEASED
    with [released_at] and [released_by] set. *)
Definition release_columns_consistent (r : Row.t) : Prop :=
  (Row.status r = "ACTIVE" ∧ Row.released_at r = None ∧
   Row.released_by r = None ∧ Row.release_reason r = None) ∨
  (Row.status r = "RELEASED" ∧ Row.released_at r ≠ None ∧
   Row.released_by r ≠ None).

(** Newest first, on the holds returned. *)
Definition newest_first (a b : HoldModel.t) : Prop :=
  HoldModel.createdAt b ≤ HoldModel.createdAt a.

(** ** Sample data *)

(** A decoder that knows three tokens: full operator, read-only auditor,
    and a token with neither [sub] nor [roles]. *)
Definition decode0 (token : string) (algorithms : list string)
    : option Payload.t :=
  if bool_decide (token = "ops1")
  then Some (Payload.mk (Some "user:ops1")
               (Some ["ops.block:read"; "ops.block:create"; "ops.block:release"]))
  else if bool_decide (token = "reader")
  then Some (Payload.mk (Some "user:audit") (Some ["ops.block:read"]))
  else if bool_decide (token = "anon")
  then Some (Payload.mk None None)
  else None.

(** A database that hands rows out in table order. *)
Definition env0 : Env :=
  mkEnv 1000 1001 7%N decode0 id (λ rows, reflexivity rows).
Definition env1 : Env :=
  mkEnv 1002 1003 9%N decode0 id (λ rows, reflexivity rows).

Definition bearer (credentials : string) : option HTTPAuthorizationCredentials.t :=
  Some (HTTPAuthorizationCredentials.mk "Bearer" credentials).

Definition ops1 : Principal.t :=
  Principal.mk "user:ops1" ["ops.block:read"; "ops.block:create"; "ops.block:release"].

Definition ops2 : Principal.t := Principal.mk "user:ops2" ["ops.block:create"].

Definition reader : Principal.t := Principal.mk "user:audit" ["ops.block:read"].

Definition db0 : DB := mkDB [1%N; 2%N] [].

Definition body0 : CreateHoldBody.t :=
  CreateHoldBody.mk "FRAUD_SUSPECT" (Some "card testing") None (Some (aware 2000)).

Definition body_other : CreateHoldBody.t :=
  CreateHoldBody.mk "INCORRECT_BENEFICIARY_DETAILS" None None (Some (aware 5000)).

Definition body_past : CreateHoldBody.t :=
  CreateHoldBody.mk "INCORRECT_BENEFICIARY_DETAILS" None (Some "backoffice") (Some (aware 500)).

(** A body whose [expiresAt] was given without an offset, e.g.
    "2020-01-01T00:00:00": long past on any clock. *)
Definition body_naive_past : CreateHoldBody.t :=
  CreateHoldBody.mk "FRAUD_SUSPECT" None None (Some (naive 500)).

Definition row0 : Row.t :=
  Row.mk 7%N 1%N "FRAUD_SUSPECT" "ACTIVE" (Some "card testing") None 1001
    "user:ops1" (Some (aware 2000)) None None None "K1".

Definition row_released : Row.t :=
  Row.mk 7%N 1%N "FRAUD_SUSPECT" "RELEASED" (Some "card testing") None 1001
    "user:ops1" (Some (aware 2000)) (Some 1001) (Some "user:ops1") (Some "cleared") "K1".

Definition row_released_no_reason : Row.t :=
  Row.mk 7%N 1%N "FRAUD_SUSPECT" "RELEASED" (Some "card testing") None 1001
    "user:ops1" (Some (aware 2000)) (Some 1001) (Some "user:ops1") None "K1".

Definition row_beneficiary : Row.t :=
  Row.mk 8%N 1%N "INCORRECT_BENEFICIARY_DETAILS" "ACTIVE" None None 1500
    "user:ops1" None None None None "K2".

Definition db1 : DB := mkDB [1%N; 2%N] [row0].

Definition release_note : option ReleaseBody.t :=
  Some (ReleaseBody.mk (Some "cleared") (Some "note")).

(** The database after creating a hold with key "K1" for client 1 and
    releasing it with no request body. *)
Definition db_released_without_body : DB :=
  (serve (release_hold 1%N 7%N None ops1) env0
     (serve (create_hold 1%N body0 "K1" ops1) env0 db0).2).2.

(** Another session creating the hold [row0] with key "K1", from start to
    commit. *)
Definition winner (db : DB) : DB :=
  (serve (create_hold 1%N body0 "K1" ops1) env0 db).2.

(** ** Columns no handler rewrites *)

(** The columns of a row that neither [q_ins] (on existing rows) nor
    [q_upd] assigns. *)
Definition immutable_columns (r : Row.t)
    : UUID * UUID * string * option string * option string * datetime
      * string * option py_datetime * string :=
  (Row.hold_id r, Row.client_id r, Row.type r, Row.comment r, Row.source r,
   Row.created_at r, Row.created_by r, Row.expires_at r, Row.idempotency_key r).

(** ** More sample data *)

Definition db2 : DB := mkDB [1%N; 2%N] [row_beneficiary; row0].

Definition db2_released : DB := mkDB [1%N; 2%N] [row_beneficiary; row_released].

(** Another session releasing hold 7 of client 1, from start to commit. *)
Definition other_release (db : DB) : DB :=
  (serve (release_hold 1%N 7%N release_note ops1) env0 db).2.

Definition late_release : option ReleaseBody.t :=
  Some (ReleaseBody.mk (Some "duplicate request") None).

Definition row_released_late : Row.t :=
  Row.mk 7%N 1%N "FRAUD_SUSPECT" "RELEASED" (Some "card testing") None 1001
    "user:ops1" (Some (aware 2000)) (Some 1003) (Some "user:ops2")
    (Some "duplicate request") "K1".

(** * Properties *)

(** ** Result sets *)

Section result_sets.
Context {A : Type} (P : A → Prop) `{!∀ x, Decision (P x)}.

Lemma filter_empty (l : list A) :
  (∀ x, x ∈ l → ¬ P x) → filter P l = [].
Proof.
  induction l as [|a l IH]; intros Hall; [done|].
  rewrite filter_cons_False by (apply Hall; left).
  apply IH. intros x Hx. apply Hall. by right.
Qed.

Lemma first_filter_None (l : list A) :
  first (filter P l) = None ↔ ∀ x, x ∈ l → ¬ P x.
Proof.
  unfold first. split.
  - intros Hhd x Hin HP.
    assert (x ∈ filter P l) as Hx by (apply list_elem_of_filter; done).
    destruct (filter P l); [by apply not_elem_of_nil in Hx | done].
  - intros Hall. by rewrite filter_empty.
Qed.

Lemma first_take_1 (l : list A) : first (take 1 l) = first l.
Proof. by destruct l as [|? [|? ?]]. Qed.

End result_sets.

(** Under a uniqueness constraint on column [f], selecting by the value a
    present row has in that column yields that row alone. *)
Lemma filter_unique_column {A K} `{EqDecision K} (f : A → K) (l : list A) (r : A) :
  NoDup (f <$> l) → r ∈ l → filter (λ x, f x = f r) l = [r].
Proof.
  induction l as [|a l IH]; intros Hnd Hin.
  - by apply not_elem_of_nil in Hin.
  - rewrite fmap_cons in Hnd. apply NoDup_cons in Hnd as [Hfresh Hnd].
    rewrite filter_cons. apply elem_of_cons in Hin as [->|Hin].
    + rewrite decide_True by done. f_equal.
      apply filter_empty. intros x Hx Heq.
      apply Hfresh. rewrite <- Heq. by apply list_elem_of_fmap_2.
    + rewrite decide_False; [by apply IH|].
      intros Heq. apply Hfresh. rewrite Heq. by apply list_elem_of_fmap_2.
Qed.

(** [SELECT 1 FROM client WHERE client_id = :cid], then [scalar()]. *)
Lemma scalar_q_exists (cid : UUID) (clients : list UUID) :
  scalar ((λ _, 1) <$> filter (λ c, c = cid) clients)
  = if bool_decide (cid ∈ clients) then Some 1 else None.
Proof.
  unfold scalar. case_bool_decide as Hin.
  - assert (cid ∈ filter (λ c, c = cid) clients) as Hf
      by (by apply list_elem_of_filter).
    by destruct (filter _ clients); [apply not_elem_of_nil in Hf|].
  - rewrite filter_empty; [done|]. by intros x Hx ->.
Qed.

(** The idempotency lookup, when the key is taken and when it is free. *)
Lemma q_idem_taken (l : list Row.t) (row : Row.t) :
  NoDup (Row.idempotency_key <$> l) → row ∈ l →
  first (take 1 (filter (λ r, Row.idempotency_key r = Row.idempotency_key row) l))
  = Some row.
Proof.
  intros Hnd Hin. by rewrite (filter_unique_column Row.idempotency_key).
Qed.

Lemma q_idem_free (l : list Row.t) (ik : string) :
  (ik ∉ Row.idempotency_key <$> l) →
  first (take 1 (filter (λ r, Row.idempotency_key r = ik) l)) = None.
Proof.
  intros Hfree. rewrite first_take_1. apply first_filter_None.
  intros r Hin Hkey. apply Hfree. rewrite <- Hkey. by apply list_elem_of_fmap_2.
Qed.

(** The expiry check at the head of [create_hold], when it passes: both
    shapes of [expiresAt] lead to the client check. *)
Ltac pass_expiry_check Hexp :=
  let e := fresh "e" in
  let He := fresh "He" in
  match goal with
  | |- context [CreateHoldBody.expiresAt ?body] =>
      destruct (CreateHoldBody.expiresAt body) as [[e|e]|] eqn:He; cbn;
      [rewrite bool_decide_false
         by (destruct (Hexp _ He) as (? & [= <-] & ?); lia); cbn
      |exfalso; by destruct (Hexp _ He) as (? & ? & _)
      |]
  end.

Ltac pass_client_check :=
  rewrite scalar_q_exists, bool_decide_true by done; cbn.

(** ** Creating a hold *)

Example create_hold_db0 :
  serve (create_hold 1%N body0 "K1" ops1) env0 db0 = (inr (_row_to_hold row0), db1).
Proof. vm_compute. reflexivity. Qed.

Example create_hold_unknown_client :
  serve (create_hold 3%N body0 "K1" ops1) env0 db0
  = (inl (HTTPException 422 "Client does not exist"), db0).
Proof. vm_compute. reflexivity. Qed.

(** C1, as stated, fails: a request that replays the key "K1" of the
    existing hold [row0] but carries an [expiresAt] that is not in the
    future (500 against a clock of 1000) is rejected with 422 before the
    idempotency lookup; the existing hold is not returned. *)
Lemma create_hold_replay_rejected_when_invalid :
  row0 ∈ payment_hold db1 ∧
  Row.idempotency_key row0 = "K1" ∧
  serve (create_hold 1%N body_past "K1" ops1) env0 db1
  = (inl (HTTPException 422 "expiresAt must be in future"), db1) ∧
  (serve (create_hold 1%N body_past "K1" ops1) env0 db1).1
  ≠ inr (_row_to_hold row0).
Proof.
  split; [left|]. split; [done|]. split; [by vm_compute|].
  vm_compute. discriminate.
Qed.

(** C1, amended: for every create request that passes validation
    ([expiresAt] absent or strictly in the future, [clientId] an existing
    client) and whose idempotency key is that of an existing hold row,
    [create_hold] returns that hold unchanged and leaves the database as it
    was, whatever type, comment, source, expiresAt and principal the request
    carries. *)
Theorem create_hold_idempotent_replay
    env db clientId body idempotency_key principal row :
  unique_idempotency_keys db →
  expiry_in_future env body →
  clientId ∈ client db →
  row ∈ payment_hold db →
  Row.idempotency_key row = idempotency_key →
  serve (create_hold clientId body idempotency_key principal) env db
  = (inr (_row_to_hold row), db).
Proof.
  intros Hnd Hexp Hcl Hin <-. unfold serve, create_hold.
  pass_expiry_check Hexp.
  all: pass_client_check.
  all: by rewrite q_idem_taken.
Qed.

Lemma create_hold_idempotent_replay_witness :
  serve (create_hold 1%N body_other "K1" ops2) env0 db1
  = (inr (_row_to_hold row0), db1).
Proof.
  apply (create_hold_idempotent_replay env0 db1 1%N body_other "K1" ops2 row0).
  - unfold unique_idempotency_keys. vm_compute. apply NoDup_singleton.
  - intros e [= <-]. eexists. split; [reflexivity|]. vm_compute. reflexivity.
  - left.
  - left.
  - reflexivity.
Defined.

(** C10: the idempotency lookup is by key alone.  A valid request that
    replays the key of an existing hold under another [clientId] gets the
    original hold back, whose [clientId] is not the one of the request, and
    the database is left as it was. *)
Theorem create_hold_replay_ignores_client
    env db clientId body idempotency_key principal row :
  unique_idempotency_keys db →
  expiry_in_future env body →
  clientId ∈ client db →
  row ∈ payment_hold db →
  Row.idempotency_key row = idempotency_key →
  Row.client_id row ≠ clientId →
  ∃ hold,
    serve (create_hold clientId body idempotency_key principal) env db
    = (inr hold, db) ∧
    hold = _row_to_hold row ∧
    HoldModel.clientId hold ≠ clientId.
Proof.
  intros Hnd Hexp Hcl Hin <- Hne. exists (_row_to_hold row).
  split; [|done]. unfold serve, create_hold.
  pass_expiry_check Hexp.
  all: pass_client_check.
  all: rewrite first_take_1.
  all: rewrite (filter_unique_column Row.idempotency_key) by done.
  all: done.
Qed.

Lemma create_hold_replay_ignores_client_witness :
  ∃ hold,
    serve (create_hold 2%N body0 "K1" ops1) env0 db1 = (inr hold, db1) ∧
    hold = _row_to_hold row0 ∧
    HoldModel.clientId hold ≠ 2%N.
Proof.
  apply (create_hold_replay_ignores_client env0 db1 2%N body0 "K1" ops1 row0).
  - unfold unique_idempotency_keys. vm_compute. apply NoDup_singleton.
  - intros e [= <-]. eexists. split; [reflexivity|]. vm_compute. reflexivity.
  - right. left.
  - left.
  - reflexivity.
  - vm_compute. discriminate.
Defined.

Example create_hold_naive_past_expiry :
  serve (create_hold 1%N body_naive_past "K3" ops1) env0 db0
  = (inl TypeError, db0).
Proof. vm_compute. reflexivity. Qed.

(** C6: what [create_hold] answers on each kind of request.  An aware
    [expiresAt] that is not strictly after the clock gets 422; an unknown
    [clientId] gets 422 (when the expiry check lets the request through);
    a request passing both checks never gets a 422.  A naive [expiresAt] --
    any, in the past or not -- is where the code breaks the claim: the
    comparison with [_now()] raises [TypeError], no 422 is produced, and
    the request ends as an unhandled error before the client is looked
    at. *)
Theorem create_hold_validation env db clientId body idempotency_key principal :
  let result := serve (create_hold clientId body idempotency_key principal) env db in
  (∀ instant, CreateHoldBody.expiresAt body = Some (aware instant) →
        instant ≤ clock env →
        result = (inl (HTTPException 422 "expiresAt must be in future"), db)) ∧
  (∀ wall_clock, CreateHoldBody.expiresAt body = Some (naive wall_clock) →
        result = (inl TypeError, db) ∧
        ∀ detail, result.1 ≠ inl (HTTPException 422 detail)) ∧
  ((∀ wall_clock, CreateHoldBody.expiresAt body ≠ Some (naive wall_clock)) →
   clientId ∉ client db →
        ∃ detail, result = (inl (HTTPException 422 detail), db)) ∧
  (expiry_in_future env body → clientId ∈ client db →
        ∀ detail, result.1 ≠ inl (HTTPException 422 detail)).
Proof.
  cbv zeta. split; [|split; [|split]].
  - intros instant He Hle. unfold serve, create_hold. rewrite He. cbn.
    by rewrite bool_decide_true.
  - intros wall_clock He. unfold serve, create_hold. rewrite He. cbn. done.
  - intros Haware Hcl. unfold serve, create_hold.
    destruct (CreateHoldBody.expiresAt body) as [[instant|wall_clock]|]; cbn;
      [case_bool_decide; cbn; [by eexists|]
      |by destruct (Haware wall_clock)
      |].
    all: rewrite scalar_q_exists, bool_decide_false by done.
    all: by eexists.
  - intros Hexp Hcl detail. unfold serve, create_hold.
    pass_expiry_check Hexp.
    all: pass_client_check.
    all: destruct (first _); cbn; [done|].
    all: repeat (case_bool_decide; cbn; try done).
Qed.

(** X1: a valid create whose key is free (and whose generated identifier
    is new) adds exactly one row at the end of the table -- ACTIVE, created
    by the principal, stamped with the database clock, with the three
    release columns null -- and returns it. *)
Lemma create_hold_inserts env db clientId body idempotency_key principal :
  expiry_in_future env body →
  clientId ∈ client db →
  (idempotency_key ∉ Row.idempotency_key <$> payment_hold db) →
  (uuid_generate env ∉ Row.hold_id <$> payment_hold db) →
  let row :=
    Row.mk (uuid_generate env) clientId (CreateHoldBody.type body) "ACTIVE"
      (CreateHoldBody.comment body) (CreateHoldBody.source body)
      (db_clock env) (Principal.sub principal)
      (CreateHoldBody.expiresAt body) None None None idempotency_key in
  serve (create_hold clientId body idempotency_key principal) env db
  = (inr (_row_to_hold row), mkDB (client db) (payment_hold db ++ [row])).
Proof.
  intros Hexp Hcl Hfree Hfresh. cbv zeta. unfold serve, create_hold.
  pass_expiry_check Hexp.
  all: pass_client_check.
  all: rewrite q_idem_free by done; cbn.
  all: rewrite !bool_decide_false by (done || by intros []); cbn.
  all: done.
Qed.

(** ** Release *)

(** Selecting by client and hold identifier, under the key on [hold_id]. *)
Lemma q_sel_unique (l : list Row.t) (r : Row.t) :
  NoDup (Row.hold_id <$> l) → r ∈ l →
  filter (λ x, Row.client_id x = Row.client_id r ∧ Row.hold_id x = Row.hold_id r) l
  = [r].
Proof.
  intros Hnd Hin.
  rewrite <- (list_filter_filter (λ x, Row.client_id x = Row.client_id r)
                (λ x, Row.hold_id x = Row.hold_id r)).
  rewrite (filter_unique_column Row.hold_id) by done.
  by rewrite filter_cons_True.
Qed.

(** The [UPDATE ... WHERE hold_id = :hid RETURNING *] of [release_hold],
    under the key on [hold_id]: one row changes, and it is the row
    returned. *)
Lemma q_upd_unique (now : datetime) (by_ : string) (reason : option string)
    (l : list Row.t) (r : Row.t) :
  NoDup (Row.hold_id <$> l) → r ∈ l →
  let upd x :=
    if bool_decide (Row.hold_id x = Row.hold_id r)
    then release_row now by_ reason x else x in
  ∃ before after,
    l = before ++ r :: after ∧
    upd <$> l = before ++ release_row now by_ reason r :: after ∧
    filter (λ x, Row.hold_id x = Row.hold_id r) (upd <$> l)
    = [release_row now by_ reason r].
Proof.
  intros Hnd Hin upd.
  destruct (list_elem_of_split l r Hin) as (before & after & ->).
  rewrite fmap_app, fmap_cons in Hnd.
  apply NoDup_app in Hnd as (_ & Hbefore & Hafter).
  apply NoDup_cons in Hafter as [Hafter _].
  assert (∀ x, x ∈ before → Row.hold_id x ≠ Row.hold_id r) as Hb.
  { intros x Hx Heq. apply (Hbefore (Row.hold_id x)).
    - by apply list_elem_of_fmap_2.
    - rewrite Heq. left. }
  assert (∀ x, x ∈ after → Row.hold_id x ≠ Row.hold_id r) as Ha.
  { intros x Hx Heq. apply Hafter. rewrite <- Heq. by apply list_elem_of_fmap_2. }
  assert (∀ k : list Row.t,
            (∀ x, x ∈ k → Row.hold_id x ≠ Row.hold_id r) → upd <$> k = k) as Hid.
  { intros k Hk. rewrite <- (list_fmap_id k) at 2. apply list_fmap_ext.
    intros i x Hx. unfold upd. rewrite bool_decide_false; [done|].
    apply Hk. by eapply list_elem_of_lookup_2. }
  assert (upd r = release_row now by_ reason r) as Hr
    by (unfold upd; by rewrite bool_decide_true).
  exists before, after. split; [done|].
  rewrite fmap_app, fmap_cons, Hr, (Hid before Hb), (Hid after Ha).
  split; [done|].
  rewrite filter_app, filter_cons_True by done.
  by rewrite (filter_empty _ before), (filter_empty _ after).
Qed.

Example release_hold_db1 :
  serve (release_hold 1%N 7%N release_note ops1) env0 db1
  = (inr (_row_to_hold row_released), mkDB [1%N; 2%N] [row_released]).
Proof. vm_compute. reflexivity. Qed.

Example release_hold_twice :
  serve (release_hold 1%N 7%N release_note ops1) env1
    (mkDB [1%N; 2%N] [row_released])
  = (inl (HTTPException 409 "Already closed"), mkDB [1%N; 2%N] [row_released]).
Proof. vm_compute. reflexivity. Qed.

Example release_hold_other_client :
  serve (release_hold 2%N 7%N release_note ops1) env0 db1
  = (inl (HTTPException 404 "Not found"), db1).
Proof. vm_compute. reflexivity. Qed.

(** C3: [release_hold] answers 404 when the client has no hold with the
    given identifier, 409 when that hold is not ACTIVE, and otherwise sets
    the hold's status to RELEASED, [releasedAt] to the database clock,
    [releasedBy] to the principal's subject and [releaseReason] to the
    reason of the body (null without a body), changes no other row or
    field, and returns the updated hold.  The [comment] of the body does
    not affect anything. *)
Theorem release_hold_outcome env db clientId holdId body principal :
  unique_hold_ids db →
  let result := serve (release_hold clientId holdId body principal) env db in
  ((∀ r, r ∈ payment_hold db →
         ¬ (Row.client_id r = clientId ∧ Row.hold_id r = holdId)) →
     result = (inl (HTTPException 404 "Not found"), db)) ∧
  (∀ r, r ∈ payment_hold db →
        Row.client_id r = clientId → Row.hold_id r = holdId →
     (Row.status r ≠ "ACTIVE" →
        result = (inl (HTTPException 409 "Already closed"), db)) ∧
     (Row.status r = "ACTIVE" →
        ∃ before after,
          payment_hold db = before ++ r :: after ∧
          let released :=
            Row.mk (Row.hold_id r) (Row.client_id r) (Row.type r) "RELEASED"
              (Row.comment r) (Row.source r) (Row.created_at r)
              (Row.created_by r) (Row.expires_at r)
              (Some (db_clock env)) (Some (Principal.sub principal))
              (reason_of body) (Row.idempotency_key r) in
          result = (inr (_row_to_hold released),
                    mkDB (client db) (before ++ released :: after)))) ∧
  (∀ reason comment comment',
     serve (release_hold clientId holdId
              (Some (ReleaseBody.mk reason comment)) principal) env db
     = serve (release_hold clientId holdId
                (Some (ReleaseBody.mk reason comment')) principal) env db).
Proof.
  intros Hnd. cbv zeta. split; [|split].
  - intros Hnone. unfold serve, release_hold. cbn.
    by rewrite (proj2 (first_filter_None _ _) Hnone).
  - intros r Hin <- <-. unfold serve, release_hold. cbn.
    rewrite q_sel_unique by done. cbn. split.
    + intros Hst. by rewrite bool_decide_true.
    + intros Hst. rewrite bool_decide_false by (by intros []). cbn.
      destruct (q_upd_unique (db_clock env) (Principal.sub principal)
                  (reason_of body) (payment_hold db) r Hnd Hin)
        as (before & after & Hl & Hupd & Hret).
      cbv zeta in Hupd, Hret. unfold reason_of in Hupd, Hret.
      exists before, after. split; [done|].
      rewrite Hret, Hupd. done.
  - done.
Qed.

Lemma release_hold_outcome_witness :
  ∃ before after,
    payment_hold db1 = before ++ row0 :: after ∧
    serve (release_hold 1%N 7%N release_note ops1) env0 db1
    = (inr (_row_to_hold row_released),
       mkDB (client db1) (before ++ row_released :: after)).
Proof.
  assert (unique_hold_ids db1) as Hnd by (vm_compute; apply NoDup_singleton).
  destruct (release_hold_outcome env0 db1 1%N 7%N release_note ops1 Hnd)
    as (_ & Hfound & _).
  destruct (Hfound row0 ltac:(left) eq_refl eq_refl) as [_ Hactive].
  exact (Hactive eq_refl).
Defined.

(** ** What the mutating handlers do to the table *)

Lemma create_hold_effect env db clientId body idempotency_key principal :
  let db' := (serve (create_hold clientId body idempotency_key principal) env db).2 in
  db' = db ∨
  ∃ r,
    r = new_row env clientId (CreateHoldBody.type body)
          (CreateHoldBody.comment body) (CreateHoldBody.source body)
          (Principal.sub principal) (CreateHoldBody.expiresAt body)
          idempotency_key ∧
    (Row.hold_id r ∉ Row.hold_id <$> payment_hold db) ∧
    (idempotency_key ∉ Row.idempotency_key <$> payment_hold db) ∧
    db' = mkDB (client db) (payment_hold db ++ [r]).
Proof.
  cbv zeta. unfold serve, create_hold.
  destruct (CreateHoldBody.expiresAt body) as [[e|e]|] eqn:He; cbn;
    [case_bool_decide; cbn; [by left|] |by left |].
  all: destruct (scalar _); cbn; [|by left].
  all: destruct (first _); cbn; [by left|].
  all: case_bool_decide as Hid; cbn; [by left|].
  all: case_bool_decide as Hkey; cbn; [by left|].
  all: case_bool_decide as Hcl; cbn; [by left|].
  all: right; eexists; split; [done|].
  all: done.
Qed.

Lemma release_hold_effect env db clientId holdId body principal :
  let db' := (serve (release_hold clientId holdId body principal) env db).2 in
  db' = db ∨
  db' = mkDB (client db)
          ((λ r, if bool_decide (Row.hold_id r = holdId)
                 then release_row (db_clock env) (Principal.sub principal)
                        (reason_of body) r
                 else r) <$> payment_hold db).
Proof.
  cbv zeta. unfold serve, release_hold. cbn.
  destruct (first _); cbn; [|by left].
  case_bool_decide; cbn; [by left|].
  unfold _row_to_hold_first. destruct (first _); cbn; by right.
Qed.

(** The two uniqueness constraints hold in every reachable database. *)
Lemma reachable_unique db :
  reachable db → unique_hold_ids db ∧ unique_idempotency_keys db.
Proof.
  unfold unique_hold_ids, unique_idempotency_keys.
  induction 1 as [clients
                 |db env clientId body ik principal _ [IHid IHkey]
                 |db env clientId holdId body principal _ [IHid IHkey]].
  - cbn. split; apply NoDup_nil_2.
  - destruct (create_hold_effect env db clientId body ik principal)
      as [->|(r & Hr & Hid & Hkey & ->)]; [done|].
    cbn. rewrite !fmap_app. cbn.
    split; apply NoDup_app; (split; [done|]); (split; [|apply NoDup_singleton]).
    + intros x Hx Hx'. apply list_elem_of_singleton in Hx' as ->. done.
    + intros x Hx Hx'. apply list_elem_of_singleton in Hx' as ->.
      apply Hkey. by rewrite Hr in Hx.
  - destruct (release_hold_effect env db clientId holdId body principal)
      as [->| ->]; [done|].
    cbn. rewrite <- !list_fmap_compose.
    split.
    + erewrite list_fmap_ext; [exact IHid|].
      intros i x _. cbn. by case_bool_decide.
    + erewrite list_fmap_ext; [exact IHkey|].
      intros i x _. cbn. by case_bool_decide.
Qed.

Lemma reachable_release_columns db :
  reachable db → Forall release_columns_consistent (payment_hold db).
Proof.
  induction 1 as [clients
                 |db env clientId body ik principal _ IH
                 |db env clientId holdId body principal _ IH].
  - cbn. apply Forall_nil_2.
  - destruct (create_hold_effect env db clientId body ik principal)
      as [->|(r & -> & _ & _ & ->)]; [done|].
    cbn. apply Forall_app. split; [done|].
    apply Forall_singleton. by left.
  - destruct (release_hold_effect env db clientId holdId body principal)
      as [->| ->]; [done|].
    cbn. apply Forall_fmap. eapply Forall_impl; [exact IH|].
    intros r Hr. cbn. case_bool_decide; [|done]. by right.
Qed.

Lemma reachable_db_released_without_body : reachable db_released_without_body.
Proof.
  unfold db_released_without_body.
  apply reachable_release, reachable_create, reachable_empty.
Qed.

(** ** Release fields and status *)

(** C4, as stated, fails for [releaseReason]: a hold created and then
    released without a body (or with a body whose [reason] is null) is
    RELEASED and has a null [releaseReason]. *)
Lemma released_hold_without_reason :
  reachable db_released_without_body ∧
  row_released_no_reason ∈ payment_hold db_released_without_body ∧
  HoldModel.status (_row_to_hold row_released_no_reason) = "RELEASED" ∧
  HoldModel.releaseReason (_row_to_hold row_released_no_reason) = None ∧
  ¬ (HoldModel.releaseReason (_row_to_hold row_released_no_reason) ≠ None
     ↔ HoldModel.status (_row_to_hold row_released_no_reason) = "RELEASED").
Proof.
  split; [apply reachable_db_released_without_body|].
  split; [vm_compute; left|]. cbn.
  split; [done|]. split; [done|]. intros [_ Hiff]. by apply Hiff.
Qed.

(** C4, amended: for every hold reachable through [create_hold] and
    [release_hold], [releasedAt] is non-null iff the status is RELEASED,
    [releasedBy] is non-null iff the status is RELEASED, and
    [releaseReason] is non-null only if the status is RELEASED. *)
Theorem release_fields_iff_released db r :
  reachable db →
  r ∈ payment_hold db →
  let hold := _row_to_hold r in
  (HoldModel.releasedAt hold ≠ None ↔ HoldModel.status hold = "RELEASED") ∧
  (HoldModel.releasedBy hold ≠ None ↔ HoldModel.status hold = "RELEASED") ∧
  (HoldModel.releaseReason hold ≠ None → HoldModel.status hold = "RELEASED").
Proof.
  intros Hreach Hin. cbn.
  pose proof (reachable_release_columns db Hreach) as Hall.
  rewrite Forall_forall in Hall.
  destruct (Hall r Hin) as [(Hst & Hat & Hby & Hreason)|(Hst & Hat & Hby)].
  - rewrite Hst, Hat, Hby, Hreason. repeat split; done.
  - rewrite Hst. repeat split; done.
Qed.

Lemma release_fields_iff_released_witness :
  let hold := _row_to_hold row_released_no_reason in
  (HoldModel.releasedAt hold ≠ None ↔ HoldModel.status hold = "RELEASED") ∧
  (HoldModel.releasedBy hold ≠ None ↔ HoldModel.status hold = "RELEASED") ∧
  (HoldModel.releaseReason hold ≠ None → HoldModel.status hold = "RELEASED").
Proof.
  apply (release_fields_iff_released db_released_without_body).
  - apply reachable_db_released_without_body.
  - vm_compute. left.
Defined.

(** ** Check *)

(** C5: [check_hold] reports [blocked] exactly when the client has an
    ACTIVE hold; [kind] is FRAUD exactly when one of the client's ACTIVE
    holds has type FRAUD_SUSPECT, NON_FRAUD exactly when there are ACTIVE
    holds and none has that type, NONE exactly when there is no ACTIVE
    hold; [activeHolds] holds the client's ACTIVE holds, all of them and
    nothing else, in the order the database returns them.  Nothing is
    written. *)
Theorem check_hold_outcome env db clientId principal :
  ∃ response,
    serve (check_hold clientId principal) env db = (inr response, db) ∧
    let active r := Row.client_id r = clientId ∧ Row.status r = "ACTIVE" in
    (CheckResponse.blocked response = true
     ↔ ∃ r, r ∈ payment_hold db ∧ active r) ∧
    (CheckResponse.kind response = "FRAUD"
     ↔ ∃ r, r ∈ payment_hold db ∧ active r ∧ Row.type r = "FRAUD_SUSPECT") ∧
    (CheckResponse.kind response = "NON_FRAUD"
     ↔ (∃ r, r ∈ payment_hold db ∧ active r) ∧
       (∀ r, r ∈ payment_hold db → active r → Row.type r ≠ "FRAUD_SUSPECT")) ∧
    (CheckResponse.kind response = "NONE"
     ↔ ∀ r, r ∈ payment_hold db → ¬ active r) ∧
    CheckResponse.activeHolds response
    ≡ₚ _row_to_hold <$> filter active (payment_hold db) ∧
    (∀ hold, hold ∈ CheckResponse.activeHolds response
             ↔ ∃ r, r ∈ payment_hold db ∧ active r ∧ hold = _row_to_hold r).
Proof.
  eexists. split; [unfold serve, check_hold; cbn; reflexivity|]. cbn.
  set (active := λ r, Row.client_id r = clientId ∧ Row.status r = "ACTIVE").
  set (rows := scan env (filter active (payment_hold db))).
  assert (∀ r, r ∈ rows ↔ r ∈ payment_hold db ∧ active r) as Hrows.
  { intros r. unfold rows. rewrite (scan_permutation env), list_elem_of_filter.
    tauto. }
  assert ((0 < length rows)%nat ↔ ∃ r, r ∈ payment_hold db ∧ active r) as Hblocked.
  { split.
    - intros Hlen. destruct rows as [|r rows'] eqn:Heq; [cbn in Hlen; lia|].
      exists r. apply Hrows. left.
    - intros (r & Hr). apply Hrows in Hr.
      destruct rows; [by apply not_elem_of_nil in Hr | cbn; lia]. }
  assert ("FRAUD_SUSPECT" ∈ (list_to_set (Row.type <$> rows) : gset string)
          ↔ ∃ r, r ∈ payment_hold db ∧ active r ∧ Row.type r = "FRAUD_SUSPECT")
    as Hfraud.
  { rewrite elem_of_list_to_set, list_elem_of_fmap. split.
    - intros (r & Hty & Hr). apply Hrows in Hr as [? ?]. by exists r.
    - intros (r & Hin & Hact & Hty). exists r. split; [done|]. by apply Hrows. }
  split; [by rewrite bool_decide_eq_true|].
  split; [|split; [|split; [|split]]].
  - case_bool_decide as Hb; [case_bool_decide as Hf|].
    + split; [intros _; by apply Hfraud | done].
    + split; [done|]. intros Hex. by apply Hfraud in Hex.
    + split; [done|]. intros (r & Hin & Hact & _). destruct Hb.
      apply Hblocked. by exists r.
  - case_bool_decide as Hb; [case_bool_decide as Hf|].
    + split; [done|]. intros [_ Hnone]. apply Hfraud in Hf as (r & ? & ? & ?).
      by destruct (Hnone r).
    + split; [|done]. intros _. split; [by apply Hblocked|].
      intros r Hin Hact Hty. apply Hf, Hfraud. by exists r.
    + split; [done|]. intros [Hex _]. by apply Hblocked in Hex.
  - case_bool_decide as Hb; [case_bool_decide as Hf|].
    + split; [done|]. intros Hnone. apply Hblocked in Hb as (r & ? & ?).
      by destruct (Hnone r).
    + split; [done|]. intros Hnone. apply Hblocked in Hb as (r & ? & ?).
      by destruct (Hnone r).
    + split; [|done]. intros _ r Hin Hact. apply Hb, Hblocked. by exists r.
  - apply fmap_Permutation. unfold rows. apply scan_permutation.
  - intros hold. rewrite list_elem_of_fmap. split.
    + intros (r & -> & Hr). apply Hrows in Hr as [? ?]. by exists r.
    + intros (r & Hin & Hact & ->). exists r. split; [done|]. by apply Hrows.
Qed.

Example check_hold_fraud :
  (serve (check_hold 1%N ops1) env0 (mkDB [1%N; 2%N] [row_beneficiary; row0])).1
  = inr (CheckResponse.mk true "FRAUD"
           [_row_to_hold row_beneficiary; _row_to_hold row0]).
Proof. vm_compute. reflexivity. Qed.

Example check_hold_non_fraud :
  (serve (check_hold 1%N ops1) env0
     (mkDB [1%N; 2%N] [row_beneficiary; row_released])).1
  = inr (CheckResponse.mk true "NON_FRAUD" [_row_to_hold row_beneficiary]).
Proof. vm_compute. reflexivity. Qed.

Example check_hold_none :
  (serve (check_hold 2%N ops1) env0 (mkDB [1%N; 2%N] [row_beneficiary; row0])).1
  = inr (CheckResponse.mk false "NONE" []).
Proof. vm_compute. reflexivity. Qed.

(** ** List *)

Global Instance created_at_desc_total : Total created_at_desc.
Proof. intros a b. unfold created_at_desc. lia. Qed.

Global Instance created_at_desc_trans : Transitive created_at_desc.
Proof. intros a b c. unfold created_at_desc. lia. Qed.

Lemma order_by_created_at_desc_holds (rows : list Row.t) :
  StronglySorted newest_first (_row_to_hold <$> order_by_created_at_desc rows).
Proof.
  unfold order_by_created_at_desc.
  pose proof (StronglySorted_merge_sort created_at_desc rows) as Hsorted.
  induction Hsorted as [|r l _ IH Hall]; cbn; constructor; [done|].
  apply Forall_fmap. eapply Forall_impl; [exact Hall|]. done.
Qed.

(** C7: [list_holds] returns, newest first, all of the client's holds when
    the filter is ALL, and otherwise (ACTIVE, RELEASED) exactly the client's
    holds whose status equals the filter.  Nothing is written. *)
Theorem list_holds_outcome env db clientId status principal :
  ∃ response,
    serve (list_holds clientId status principal) env db = (inr response, db) ∧
    (status = "ALL" →
       ListResponse.items response
       ≡ₚ _row_to_hold <$>
            filter (λ r, Row.client_id r = clientId) (payment_hold db)) ∧
    (status ≠ "ALL" →
       ListResponse.items response
       ≡ₚ _row_to_hold <$>
            filter (λ r, Row.client_id r = clientId ∧ Row.status r = status)
              (payment_hold db)) ∧
    StronglySorted newest_first (ListResponse.items response).
Proof.
  unfold serve, list_holds. case_bool_decide as Hall; cbn.
  - eexists. split; [reflexivity|]. cbn. split; [|split].
    + intros _. apply fmap_Permutation. unfold order_by_created_at_desc.
      by rewrite merge_sort_Permutation, (scan_permutation env).
    + done.
    + apply order_by_created_at_desc_holds.
  - eexists. split; [reflexivity|]. cbn. split; [|split].
    + done.
    + intros _. apply fmap_Permutation. unfold order_by_created_at_desc.
      by rewrite merge_sort_Permutation, (scan_permutation env).
    + apply order_by_created_at_desc_holds.
Qed.

Example list_holds_active :
  (serve (list_holds 1%N "ACTIVE" ops1) env0
     (mkDB [1%N; 2%N] [row0; row_beneficiary])).1
  = inr (ListResponse.mk [_row_to_hold row_beneficiary; _row_to_hold row0]).
Proof. vm_compute. reflexivity. Qed.

Example list_holds_all :
  (serve (list_holds 1%N "ALL" ops1) env0
     (mkDB [1%N; 2%N] [row_released; row_beneficiary])).1
  = inr (ListResponse.mk [_row_to_hold row_beneficiary; _row_to_hold row_released]).
Proof. vm_compute. reflexivity. Qed.

Example list_holds_released :
  (serve (list_holds 1%N "RELEASED" ops1) env0
     (mkDB [1%N; 2%N] [row_released; row_beneficiary])).1
  = inr (ListResponse.mk [_row_to_hold row_released]).
Proof. vm_compute. reflexivity. Qed.

(** ** Token verification *)

(** C9: [get_principal] answers 401 when there is no bearer token and when
    [jwt.decode] rejects the token (any [PyJWTError]: malformed token, bad
    signature, expired); when the token decodes, it returns a principal
    whose subject is the [sub] claim, or "unknown" when the claim is absent,
    and whose roles are the [roles] claim, or the empty list when the claim
    is absent.  Nothing is written. *)
Theorem get_principal_outcome env db :
  serve (get_principal None) env db
  = (inl (HTTPException 401 "Missing bearer token"), db) ∧
  (∀ token,
     jwt_decode env (HTTPAuthorizationCredentials.credentials token) [JWT_ALG] = None →
     serve (get_principal (Some token)) env db
     = (inl (HTTPException 401 "Invalid token"), db)) ∧
  (∀ token payload,
     jwt_decode env (HTTPAuthorizationCredentials.credentials token) [JWT_ALG]
     = Some payload →
     ∃ principal,
       serve (get_principal (Some token)) env db = (inr principal, db) ∧
       (∀ s, Payload.sub payload = Some s → Principal.sub principal = s) ∧
       (Payload.sub payload = None → Principal.sub principal = "unknown") ∧
       (∀ l, Payload.roles payload = Some l → Principal.roles principal = l) ∧
       (Payload.roles payload = None → Principal.roles principal = [])).
Proof.
  split; [done|]. split.
  - intros token Hdec. unfold serve, get_principal. cbn. by rewrite Hdec.
  - intros token payload Hdec. eexists. split.
    + unfold serve, get_principal. cbn. rewrite Hdec. reflexivity.
    + cbn. repeat split.
      * by intros s ->.
      * by intros ->.
      * by intros l ->.
      * by intros ->.
Qed.

Example get_principal_ops1 :
  serve (get_principal (bearer "ops1")) env0 db0 = (inr ops1, db0).
Proof. vm_compute. reflexivity. Qed.

Example get_principal_no_claims :
  serve (get_principal (bearer "anon")) env0 db0
  = (inr (Principal.mk "unknown" []), db0).
Proof. vm_compute. reflexivity. Qed.

Example get_principal_bad_token :
  serve (get_principal (bearer "garbage")) env0 db0
  = (inl (HTTPException 401 "Invalid token"), db0).
Proof. vm_compute. reflexivity. Qed.

(** ** Role gate *)

Lemma any_role_intersects required principal :
  any_role required principal = true
  ↔ ∃ r, r ∈ required ∧ r ∈ Principal.roles principal.
Proof.
  unfold any_role. induction required as [|a required IH]; cbn.
  - split; [done|]. intros (r & Hr & _). by apply not_elem_of_nil in Hr.
  - rewrite orb_true_iff, IH, bool_decide_eq_true. split.
    + intros [Ha|(r & Hr & Hrole)]; [exists a|exists r]; split; try done.
      * left.
      * by right.
    + intros (r & Hr & Hrole). apply elem_of_cons in Hr as [->|Hr]; [by left|].
      right. by exists r.
Qed.

Lemma any_role_singleton role principal :
  any_role [role] principal = bool_decide (role ∈ Principal.roles principal).
Proof. unfold any_role. cbn. by rewrite orb_false_r. Qed.

(** An authenticated request: the token is present and decodes to the
    claims of [principal]. *)
Lemma get_principal_inv env db token principal :
  (serve (get_principal token) env db).1 = inr principal →
  ∃ credentials payload,
    token = Some credentials ∧
    jwt_decode env (HTTPAuthorizationCredentials.credentials credentials) [JWT_ALG]
    = Some payload ∧
    principal = Principal.mk (default "unknown" (Payload.sub payload))
                  (default [] (Payload.roles payload)).
Proof.
  unfold serve, get_principal. destruct token as [credentials|]; cbn; [|done].
  destruct (jwt_decode env _ _) as [payload|] eqn:Hdec; cbn; [|done].
  intros [= <-]. by exists credentials, payload.
Qed.

Lemma serve_require_roles env db token principal required :
  (serve (get_principal token) env db).1 = inr principal →
  serve (require_roles required token) env db
  = if any_role required principal
    then (inr principal, db)
    else (inl (HTTPException 403 "Forbidden: insufficient role"), db).
Proof.
  intros (credentials & payload & -> & Hdec & ->)%get_principal_inv.
  unfold serve, require_roles, get_principal. cbn. rewrite Hdec. cbn.
  by destruct (any_role _ _).
Qed.

(** A handler behind [require_roles]: run with the principal when one of the
    required roles is held, 403 otherwise. *)
Lemma serve_behind_require_roles {A} env db token principal required
    (handler : Principal.t → Prog A) :
  (serve (get_principal token) env db).1 = inr principal →
  serve (require_roles required token ≫= handler) env db
  = if any_role required principal
    then serve (handler principal) env db
    else (inl (HTTPException 403 "Forbidden: insufficient role"), db).
Proof.
  intros (credentials & payload & -> & Hdec & ->)%get_principal_inv.
  unfold serve, require_roles, get_principal. cbn. rewrite Hdec. cbn.
  by destruct (any_role _ _).
Qed.

(** C8: for a request whose token yields [principal], [require_roles]
    returns the principal exactly when the principal holds one of the
    required roles, and answers 403 otherwise.  Creating requires
    ops.block:create, listing, checking and reading require ops.block:read,
    releasing requires ops.block:release: a principal without the role gets
    403 whatever the path parameters and body are, and nothing is written;
    a principal with the role gets what the handler does. *)
Theorem role_gate env db token principal :
  (serve (get_principal token) env db).1 = inr principal →
  let forbidden {A} : (Exception + A) * DB :=
    (inl (HTTPException 403 "Forbidden: insufficient role"), db) in
  let holds role := role ∈ Principal.roles principal in
  (∀ required,
     ((∃ r, r ∈ required ∧ holds r) →
        serve (require_roles required token) env db = (inr principal, db)) ∧
     (¬ (∃ r, r ∈ required ∧ holds r) →
        serve (require_roles required token) env db = forbidden)) ∧
  (∀ clientId body idempotency_key,
     (holds "ops.block:create" →
        serve (route_create_hold token clientId body idempotency_key) env db
        = serve (create_hold clientId body idempotency_key principal) env db) ∧
     (¬ holds "ops.block:create" →
        serve (route_create_hold token clientId body idempotency_key) env db
        = forbidden)) ∧
  (∀ clientId status,
     (holds "ops.block:read" →
        serve (route_list_holds token clientId status) env db
        = serve (list_holds clientId status principal) env db) ∧
     (¬ holds "ops.block:read" →
        serve (route_list_holds token clientId status) env db = forbidden)) ∧
  (∀ clientId,
     (holds "ops.block:read" →
        serve (route_check_hold token clientId) env db
        = serve (check_hold clientId principal) env db) ∧
     (¬ holds "ops.block:read" →
        serve (route_check_hold token clientId) env db = forbidden)) ∧
  (∀ clientId holdId,
     (holds "ops.block:read" →
        serve (route_get_hold token clientId holdId) env db
        = serve (get_hold clientId holdId principal) env db) ∧
     (¬ holds "ops.block:read" →
        serve (route_get_hold token clientId holdId) env db = forbidden)) ∧
  (∀ clientId holdId body,
     (holds "ops.block:release" →
        serve (route_release_hold token clientId holdId body) env db
        = serve (release_hold clientId holdId body principal) env db) ∧
     (¬ holds "ops.block:release" →
        serve (route_release_hold token clientId holdId body) env db
        = forbidden)).
Proof.
  intros Hauth. cbv zeta.
  assert (∀ A role (handler : Principal.t → Prog A),
    (role ∈ Principal.roles principal →
       serve (require_roles [role] token ≫= handler) env db
       = serve (handler principal) env db) ∧
    (role ∉ Principal.roles principal →
       serve (require_roles [role] token ≫= handler) env db
       = (inl (HTTPException 403 "Forbidden: insufficient role"), db))) as Hroute.
  { intros A role handler.
    rewrite (serve_behind_require_roles env db token principal) by done.
    rewrite any_role_singleton. split; intros Hrole.
    - by rewrite bool_decide_true.
    - by rewrite bool_decide_false. }
  split; [|repeat split; intros; by apply Hroute].
  intros required.
  rewrite (serve_require_roles env db token principal) by done. split.
  - intros Hex%any_role_intersects. by rewrite Hex.
  - intros Hnex. destruct (any_role required principal) eqn:Hany; [|done].
    by apply any_role_intersects in Hany.
Qed.

Lemma role_gate_witness :
  serve (route_list_holds (bearer "reader") 1%N "ALL") env0 db1
  = serve (list_holds 1%N "ALL" reader) env0 db1 ∧
  serve (route_release_hold (bearer "reader") 1%N 7%N None) env0 db1
  = (inl (HTTPException 403 "Forbidden: insufficient role"), db1) ∧
  serve (route_create_hold (bearer "reader") 1%N body_past "K1") env0 db1
  = (inl (HTTPException 403 "Forbidden: insufficient role"), db1).
Proof.
  destruct (role_gate env0 db1 (bearer "reader") reader eq_refl)
    as (_ & Hcreate & Hlist & _ & _ & Hrelease).
  split; [|split].
  - apply Hlist. left.
  - apply Hrelease. intros Hrole. apply list_elem_of_singleton in Hrole. discriminate.
  - apply Hcreate. intros Hrole. apply list_elem_of_singleton in Hrole. discriminate.
Defined.

(** ** Two creates racing on one idempotency key *)

(** C2, as stated, fails: a request with key "K1" looks the key up and
    finds nothing, another session then commits a hold with that key, and
    the INSERT of the first request violates the unique constraint.  The
    violation reaches the caller as it is; the committed row is not read
    back and returned. *)
Lemma create_hold_lost_race_not_resolved :
  let result :=
    run (create_hold 1%N body0 "K1" ops2) env1 [id; id; winner] db0 db0 in
  result = (inl (IntegrityError payment_hold_idempotency_key_key), db1) ∧
  row0 ∈ payment_hold result.2 ∧
  Row.idempotency_key row0 = "K1" ∧
  result.1 ≠ inr (_row_to_hold row0).
Proof.
  cbv zeta. split; [by vm_compute|]. split; [vm_compute; left|].
  split; [done|]. vm_compute. discriminate.
Qed.

(** C2, amended: when the INSERT of [create_hold] fails with a uniqueness
    violation on the idempotency key -- the key was free at the lookup and
    another session committed a row with it before the INSERT -- the
    handler does not read the row back: the violation propagates to the
    caller as an unhandled [IntegrityError], and the request writes
    nothing (the database is as the other sessions left it). *)
Theorem create_hold_lost_race
    env before_exists before_idem before_ins db
    clientId body idempotency_key principal :
  let db_exists := before_exists db in
  let db_idem := before_idem db_exists in
  let db_ins := before_ins db_idem in
  expiry_in_future env body →
  clientId ∈ client db_exists →
  (idempotency_key ∉ Row.idempotency_key <$> payment_hold db_idem) →
  (idempotency_key ∈ Row.idempotency_key <$> payment_hold db_ins) →
  (uuid_generate env ∉ Row.hold_id <$> payment_hold db_ins) →
  run (create_hold clientId body idempotency_key principal) env
    [before_exists; before_idem; before_ins] db db
  = (inl (IntegrityError payment_hold_idempotency_key_key), db_ins).
Proof.
  cbv zeta. intros Hexp Hcl Hfree Htaken Hfresh.
  assert (first (filter (λ r, Row.idempotency_key r = idempotency_key)
                   (payment_hold (before_idem (before_exists db)))) = None)
    as Hnone.
  { apply first_filter_None. intros r Hin Hkey. apply Hfree.
    rewrite <- Hkey. by apply list_elem_of_fmap_2. }
  assert (∀ l : list Row.t, first (take 1 l) = first l) as Htake
    by (by intros [|? [|? ?]]).
  unfold create_hold.
  pass_expiry_check Hexp.
  all: pass_client_check.
  all: rewrite Htake, Hnone; cbn.
  all: rewrite bool_decide_false by done; cbn.
  all: by rewrite bool_decide_true.
Qed.

Lemma create_hold_lost_race_witness :
  run (create_hold 1%N body0 "K1" ops2) env1 [id; id; winner] db0 db0
  = (inl (IntegrityError payment_hold_idempotency_key_key), winner db0).
Proof.
  apply (create_hold_lost_race env1 id id winner db0 1%N body0 "K1" ops2).
  - intros e [= <-]. eexists. split; [reflexivity|]. vm_compute. reflexivity.
  - left.
  - vm_compute. apply not_elem_of_nil.
  - vm_compute. left.
  - vm_compute. intros Hid. apply list_elem_of_singleton in Hid. discriminate.
Defined.

(** * Operations composed *)

(** ** What a successful handler call tells *)

Lemma first_filter_elem {A} (P : A → Prop) `{!∀ x, Decision (P x)}
    (l : list A) (x : A) :
  first (filter P l) = Some x → x ∈ l ∧ P x.
Proof.
  unfold first. intros Hhd.
  assert (x ∈ filter P l) as Hin.
  { destruct (filter P l); simplify_eq/=. left. }
  by apply list_elem_of_filter in Hin as [? ?].
Qed.

(** A create that returns a hold either found the row of the key, or
    inserted it. *)
Lemma create_hold_success env db clientId body idempotency_key principal hold db' :
  serve (create_hold clientId body idempotency_key principal) env db
  = (inr hold, db') →
  ∃ row,
    hold = _row_to_hold row ∧
    Row.idempotency_key row = idempotency_key ∧
    clientId ∈ client db ∧
    ((db' = db ∧ row ∈ payment_hold db) ∨
     (db' = mkDB (client db) (payment_hold db ++ [row]) ∧
      row = new_row env clientId (CreateHoldBody.type body)
              (CreateHoldBody.comment body) (CreateHoldBody.source body)
              (Principal.sub principal) (CreateHoldBody.expiresAt body)
              idempotency_key ∧
      (Row.hold_id row ∉ Row.hold_id <$> payment_hold db) ∧
      (idempotency_key ∉ Row.idempotency_key <$> payment_hold db))).
Proof.
  unfold serve, create_hold.
  destruct (CreateHoldBody.expiresAt body) as [[e|e]|] eqn:He; cbn;
    [case_bool_decide; cbn; [done|] |done |].
  all: rewrite scalar_q_exists; case_bool_decide as Hcl; cbn; [|done].
  all: rewrite first_take_1.
  all: destruct (first _) as [row|] eqn:Hrow; cbn.
  all: try (intros [= <- <-]; apply first_filter_elem in Hrow as [Hin Hkey];
            exists row; split; [done|]; split; [done|]; split; [done|];
            left; by split).
  all: case_bool_decide as Hid; cbn; [done|].
  all: case_bool_decide as Hkey; cbn; [done|].
  all: case_bool_decide as Hfk; cbn; [done|].
  all: intros [= <- <-]; eexists; split; [done|]; split; [done|]; split; [done|].
  all: right; done.
Qed.

(** A release that returns a hold found an ACTIVE row of that client and
    rewrote it alone. *)
Lemma release_hold_success env db clientId holdId body principal hold db' :
  unique_hold_ids db →
  serve (release_hold clientId holdId body principal) env db = (inr hold, db') →
  ∃ r before after,
    payment_hold db = before ++ r :: after ∧
    Row.client_id r = clientId ∧ Row.hold_id r = holdId ∧
    Row.status r = "ACTIVE" ∧
    hold = _row_to_hold
             (release_row (db_clock env) (Principal.sub principal)
                (reason_of body) r) ∧
    db' = mkDB (client db)
            (before ++ release_row (db_clock env) (Principal.sub principal)
                         (reason_of body) r :: after).
Proof.
  intros Hnd. unfold serve, release_hold. cbn.
  destruct (first _) as [r|] eqn:Hr; cbn; [|done].
  apply first_filter_elem in Hr as (Hin & <- & <-).
  case_bool_decide as Hst; cbn; [done|].
  destruct (q_upd_unique (db_clock env) (Principal.sub principal)
              (reason_of body) (payment_hold db) r Hnd Hin)
    as (before & after & Hl & Hupd & Hret).
  cbv zeta in Hupd, Hret. unfold reason_of in Hupd, Hret.
  rewrite Hret, Hupd. cbn. intros [= <- <-].
  exists r, before, after. repeat split; done.
Qed.

(** Uniqueness is kept by one create and by one release. *)
Lemma create_hold_keeps_unique env db clientId body idempotency_key principal :
  let db' := (serve (create_hold clientId body idempotency_key principal) env db).2 in
  (unique_hold_ids db → unique_hold_ids db') ∧
  (unique_idempotency_keys db → unique_idempotency_keys db').
Proof.
  cbv zeta. unfold unique_hold_ids, unique_idempotency_keys.
  destruct (create_hold_effect env db clientId body idempotency_key principal)
    as [->|(r & Hr & Hid & Hkey & ->)]; [done|].
  cbn. rewrite !fmap_app. cbn.
  split; intros Hnd; apply NoDup_app; (split; [done|]);
    (split; [|apply NoDup_singleton]).
  - intros x Hx Hx'. apply list_elem_of_singleton in Hx' as ->. done.
  - intros x Hx Hx'. apply list_elem_of_singleton in Hx' as ->.
    apply Hkey. by rewrite Hr in Hx.
Qed.

Lemma release_row_keeps_columns now by_ reason (l : list Row.t) holdId :
  immutable_columns <$>
    ((λ r, if bool_decide (Row.hold_id r = holdId)
           then release_row now by_ reason r else r) <$> l)
  = immutable_columns <$> l.
Proof.
  rewrite <- list_fmap_compose. apply list_fmap_ext.
  intros i x _. cbn. by case_bool_decide.
Qed.

Lemma release_keeps_hold_ids now by_ reason (before after : list Row.t) r :
  Row.hold_id <$> (before ++ release_row now by_ reason r :: after)
  = Row.hold_id <$> (before ++ r :: after).
Proof. by rewrite !fmap_app, !fmap_cons. Qed.

(** The three handlers on a row that is there. *)
Lemma serve_create_hold_taken env db clientId body idempotency_key principal row :
  unique_idempotency_keys db →
  expiry_in_future env body →
  clientId ∈ client db →
  row ∈ payment_hold db →
  Row.idempotency_key row = idempotency_key →
  serve (create_hold clientId body idempotency_key principal) env db
  = (inr (_row_to_hold row), db).
Proof.
  intros Hnd Hexp Hcl Hin <-. unfold serve, create_hold.
  pass_expiry_check Hexp.
  all: pass_client_check.
  all: by rewrite q_idem_taken.
Qed.

Lemma serve_get_hold_found env db principal r :
  unique_hold_ids db →
  r ∈ payment_hold db →
  serve (get_hold (Row.client_id r) (Row.hold_id r) principal) env db
  = (inr (_row_to_hold r), db).
Proof.
  intros Hnd Hin. unfold serve, get_hold. cbn. by rewrite q_sel_unique.
Qed.

Lemma serve_release_hold_closed env db body principal r :
  unique_hold_ids db →
  r ∈ payment_hold db →
  Row.status r ≠ "ACTIVE" →
  serve (release_hold (Row.client_id r) (Row.hold_id r) body principal) env db
  = (inl (HTTPException 409 "Already closed"), db).
Proof.
  intros Hnd Hin Hst. unfold serve, release_hold. cbn.
  rewrite q_sel_unique by done. cbn. by rewrite bool_decide_true.
Qed.

(** ** Create, then create again *)

Lemma create_hold_inserts_witness :
  serve (create_hold 1%N body0 "K1" ops1) env0 db0
  = (inr (_row_to_hold row0), mkDB (client db0) (payment_hold db0 ++ [row0])).
Proof.
  apply (create_hold_inserts env0 db0 1%N body0 "K1" ops1).
  - intros e [= <-]. eexists. split; [reflexivity|]. vm_compute. reflexivity.
  - left.
  - vm_compute. apply not_elem_of_nil.
  - vm_compute. apply not_elem_of_nil.
Defined.

(** X2: retrying a create is safe.  On the database a create has just
    left, a valid create with the same key -- whatever its client, body,
    principal and clock -- returns the very hold the first one returned
    and writes nothing. *)
Theorem create_hold_twice
    env db clientId body idempotency_key principal hold db'
    env' clientId' body' principal' :
  unique_idempotency_keys db →
  serve (create_hold clientId body idempotency_key principal) env db
  = (inr hold, db') →
  expiry_in_future env' body' →
  clientId' ∈ client db' →
  serve (create_hold clientId' body' idempotency_key principal') env' db'
  = (inr hold, db').
Proof.
  intros Hnd Hfirst Hexp Hcl.
  pose proof (create_hold_keeps_unique env db clientId body idempotency_key
                principal) as [_ Hkeep].
  rewrite Hfirst in Hkeep. cbn in Hkeep. specialize (Hkeep Hnd).
  apply create_hold_success in Hfirst
    as (row & -> & Hkey & _ & [[-> Hin]|(-> & _)]).
  - by apply serve_create_hold_taken.
  - apply serve_create_hold_taken; try done.
    cbn. apply elem_of_app. right. left.
Qed.

Lemma create_hold_twice_witness :
  serve (create_hold 2%N body_other "K1" ops2) env1 db1
  = (inr (_row_to_hold row0), db1).
Proof.
  apply (create_hold_twice env0 db0 1%N body0 "K1" ops1 (_row_to_hold row0) db1
           env1 2%N body_other ops2).
  - vm_compute. apply NoDup_nil_2.
  - vm_compute. reflexivity.
  - intros e [= <-]. eexists. split; [reflexivity|]. vm_compute. reflexivity.
  - right. left.
Defined.

(** ** Reading one hold *)

(** X3: [get_hold] returns the hold with the given identifier when it
    belongs to the given client, and answers 404 both when no hold has that
    identifier and when the hold belongs to another client.  It never
    writes. *)
Theorem get_hold_outcome env db clientId holdId principal :
  unique_hold_ids db →
  let result := serve (get_hold clientId holdId principal) env db in
  ((∀ r, r ∈ payment_hold db → Row.hold_id r ≠ holdId) →
     result = (inl (HTTPException 404 "Not found"), db)) ∧
  (∀ r, r ∈ payment_hold db → Row.hold_id r = holdId →
     (Row.client_id r = clientId → result = (inr (_row_to_hold r), db)) ∧
     (Row.client_id r ≠ clientId →
        result = (inl (HTTPException 404 "Not found"), db))).
Proof.
  intros Hnd. cbv zeta. split.
  - intros Hnone. unfold serve, get_hold. cbn.
    rewrite (proj2 (first_filter_None _ _)); [done|].
    intros r Hin [_ Hid]. by apply (Hnone r).
  - intros r Hin <-. split.
    + intros <-. by apply serve_get_hold_found.
    + intros Hne. unfold serve, get_hold. cbn.
      rewrite (proj2 (first_filter_None _ _)); [done|].
      intros x Hx [Hcl Hid]. apply Hne. rewrite <- Hcl. f_equal.
      assert (x ∈ filter (λ y, Row.hold_id y = Row.hold_id r) (payment_hold db))
        as Hxf by (by apply list_elem_of_filter).
      rewrite (filter_unique_column Row.hold_id) in Hxf by done.
      by apply list_elem_of_singleton in Hxf.
Qed.

Lemma get_hold_outcome_witness :
  serve (get_hold 1%N 7%N reader) env0 db2 = (inr (_row_to_hold row0), db2) ∧
  serve (get_hold 2%N 7%N reader) env0 db2
  = (inl (HTTPException 404 "Not found"), db2).
Proof.
  assert (unique_hold_ids db2) as Hnd.
  { vm_compute. apply NoDup_cons. split; [|apply NoDup_singleton].
    intros Hin. apply list_elem_of_singleton in Hin. discriminate. }
  assert (row0 ∈ payment_hold db2) as Hin by (right; left).
  split.
  - destruct (get_hold_outcome env0 db2 1%N 7%N reader Hnd) as [_ Hfound].
    by apply (Hfound row0 Hin eq_refl).
  - destruct (get_hold_outcome env0 db2 2%N 7%N reader Hnd) as [_ Hfound].
    by apply (Hfound row0 Hin eq_refl).
Defined.

(** X4: a hold returned by [create_hold] can be read back: [get_hold] on
    the hold's own client and identifier returns it unchanged, for any
    reader and at any later clock. *)
Theorem create_then_get
    env db clientId body idempotency_key principal hold db' env' principal' :
  unique_hold_ids db →
  serve (create_hold clientId body idempotency_key principal) env db
  = (inr hold, db') →
  serve (get_hold (HoldModel.clientId hold) (HoldModel.holdId hold) principal')
    env' db'
  = (inr hold, db').
Proof.
  intros Hnd Hcreate.
  pose proof (create_hold_keeps_unique env db clientId body idempotency_key
                principal) as [Hkeep _].
  rewrite Hcreate in Hkeep. cbn in Hkeep. specialize (Hkeep Hnd).
  apply create_hold_success in Hcreate
    as (row & -> & _ & _ & [[-> Hin]|(-> & _)]).
  - by apply (serve_get_hold_found env' db principal' row).
  - apply (serve_get_hold_found env' _ principal' row); [done|].
    cbn. apply elem_of_app. right. left.
Qed.

Lemma create_then_get_witness :
  serve (get_hold 1%N 7%N reader) env1 db1 = (inr (_row_to_hold row0), db1).
Proof.
  apply (create_then_get env0 db0 1%N body0 "K1" ops1 (_row_to_hold row0) db1
           env1 reader).
  - vm_compute. apply NoDup_nil_2.
  - vm_compute. reflexivity.
Defined.

(** ** Release, then release again *)

(** X5: a released hold stays released.  After a release has returned a
    hold, that hold has status RELEASED, and every further release of it --
    whatever body, principal and clock -- answers 409 and writes nothing. *)
Theorem second_release_conflicts
    env db clientId holdId body principal hold db' env' body' principal' :
  unique_hold_ids db →
  serve (release_hold clientId holdId body principal) env db = (inr hold, db') →
  HoldModel.status hold = "RELEASED" ∧
  serve (release_hold clientId holdId body' principal') env' db'
  = (inl (HTTPException 409 "Already closed"), db').
Proof.
  intros Hnd Hfirst.
  apply release_hold_success in Hfirst
    as (r & before & after & Hl & <- & <- & Hst & -> & ->); [|done].
  split; [done|].
  set (released := release_row (db_clock env) (Principal.sub principal)
                     (reason_of body) r).
  apply (serve_release_hold_closed env' _ body' principal' released).
  - unfold unique_hold_ids. cbn. unfold released.
    rewrite release_keeps_hold_ids, <- Hl. exact Hnd.
  - cbn. apply elem_of_app. right. left.
  - done.
Qed.

Lemma second_release_conflicts_witness :
  HoldModel.status (_row_to_hold row_released) = "RELEASED" ∧
  serve (release_hold 1%N 7%N late_release ops2) env1
    (mkDB [1%N; 2%N] [row_released])
  = (inl (HTTPException 409 "Already closed"), mkDB [1%N; 2%N] [row_released]).
Proof.
  apply (second_release_conflicts env0 db1 1%N 7%N release_note ops1
           (_row_to_hold row_released) (mkDB [1%N; 2%N] [row_released])
           env1 late_release ops2).
  - vm_compute. apply NoDup_singleton.
  - vm_compute. reflexivity.
Defined.

(** ** Invariants of the table *)

(** X7: no handler ever sets the status EXPIRED: every reachable hold is
    ACTIVE or RELEASED, whatever its [expiresAt] and the clocks of the
    requests served. *)
Theorem reachable_status db r :
  reachable db →
  r ∈ payment_hold db →
  (Row.status r = "ACTIVE" ∨ Row.status r = "RELEASED") ∧
  HoldModel.status (_row_to_hold r) ≠ "EXPIRED".
Proof.
  intros Hreach Hin.
  pose proof (reachable_release_columns db Hreach) as Hall.
  rewrite Forall_forall in Hall.
  destruct (Hall r Hin) as [(Hst & _)|(Hst & _)]; cbn; rewrite Hst.
  - split; [by left | discriminate].
  - split; [by right | discriminate].
Qed.

Lemma reachable_status_witness :
  (Row.status row_released_no_reason = "ACTIVE"
   ∨ Row.status row_released_no_reason = "RELEASED") ∧
  HoldModel.status (_row_to_hold row_released_no_reason) ≠ "EXPIRED".
Proof.
  apply (reachable_status db_released_without_body).
  - apply reachable_db_released_without_body.
  - vm_compute. left.
Defined.

(** X8: the handlers never delete a hold and never rewrite what is set at
    creation.  A create leaves every existing row as it is and adds at most
    one row at the end; a release keeps the number and order of the rows
    and, in every row, the identifier, client, type, comment, source,
    creation stamp, creator, expiry and idempotency key.  Neither touches
    the [client] table. *)
Theorem handlers_never_delete_or_rewrite env db :
  (∀ clientId body idempotency_key principal,
     let db' :=
       (serve (create_hold clientId body idempotency_key principal) env db).2 in
     client db' = client db ∧
     ∃ added, payment_hold db' = payment_hold db ++ added ∧
              (length added ≤ 1)%nat) ∧
  (∀ clientId holdId body principal,
     let db' := (serve (release_hold clientId holdId body principal) env db).2 in
     client db' = client db ∧
     immutable_columns <$> payment_hold db'
     = immutable_columns <$> payment_hold db).
Proof.
  split.
  - intros clientId body ik principal. cbv zeta.
    destruct (create_hold_effect env db clientId body ik principal)
      as [->|(r & _ & _ & _ & ->)].
    + split; [done|]. exists []. split; [by rewrite app_nil_r | cbn; lia].
    + split; [done|]. exists [r]. split; [done|]. cbn. lia.
  - intros clientId holdId body principal. cbv zeta.
    destruct (release_hold_effect env db clientId holdId body principal)
      as [->| ->]; [done|].
    split; [done|]. cbn. apply release_row_keeps_columns.
Qed.

(** X9: a release rewrites nothing but the ACTIVE hold it names.  Every row
    that is not ACTIVE, or has another identifier, or belongs to another
    client, is in the table after the call exactly as it was before: once
    set, [releasedAt], [releasedBy] and [releaseReason] are not overwritten
    by a later request served on its own. *)
Theorem release_touches_active_target_only
    env db clientId holdId body principal r :
  unique_hold_ids db →
  r ∈ payment_hold db →
  Row.status r ≠ "ACTIVE" ∨ Row.hold_id r ≠ holdId ∨ Row.client_id r ≠ clientId →
  r ∈ payment_hold (serve (release_hold clientId holdId body principal) env db).2.
Proof.
  intros Hnd Hin Hother. unfold serve, release_hold. cbn.
  destruct (first _) as [target|] eqn:Htarget; cbn; [|done].
  apply first_filter_elem in Htarget as (Htin & Hcl & Hid).
  case_bool_decide as Hst; cbn; [done|].
  assert (r ≠ target) as Hne.
  { intros ->. by destruct Hother as [?|[?|?]]. }
  assert (Row.hold_id r ≠ holdId) as Hrid.
  { intros Heq. apply Hne.
    assert (r ∈ filter (λ x, Row.hold_id x = Row.hold_id target) (payment_hold db))
      as Hrf by (apply list_elem_of_filter; split; [congruence|done]).
    rewrite (filter_unique_column Row.hold_id) in Hrf by done.
    by apply list_elem_of_singleton in Hrf. }
  unfold _row_to_hold_first. destruct (first _); cbn.
  all: apply list_elem_of_fmap; exists r; split; [|done].
  all: by rewrite bool_decide_false.
Qed.

Lemma release_touches_active_target_only_witness :
  row_beneficiary
  ∈ payment_hold (serve (release_hold 1%N 7%N release_note ops1) env0 db2).2.
Proof.
  apply (release_touches_active_target_only env0 db2 1%N 7%N release_note ops1
           row_beneficiary).
  - vm_compute. apply NoDup_cons. split; [|apply NoDup_singleton].
    intros Hin. apply list_elem_of_singleton in Hin. discriminate.
  - left.
  - right. left. vm_compute. discriminate.
Defined.

(** ** Authentication before authorization *)

(** X10: a request that fails authentication gets that 401 from every
    route -- missing token or rejected token -- before any role is looked
    at and whatever its parameters and body; nothing is read or written. *)
Theorem unauthenticated_everywhere env db token e :
  (serve (get_principal token) env db).1 = inl e →
  (e = HTTPException 401 "Missing bearer token"
   ∨ e = HTTPException 401 "Invalid token") ∧
  (∀ required, serve (require_roles required token) env db = (inl e, db)) ∧
  (∀ clientId body idempotency_key,
     serve (route_create_hold token clientId body idempotency_key) env db
     = (inl e, db)) ∧
  (∀ clientId status,
     serve (route_list_holds token clientId status) env db = (inl e, db)) ∧
  (∀ clientId,
     serve (route_check_hold token clientId) env db = (inl e, db)) ∧
  (∀ clientId holdId,
     serve (route_get_hold token clientId holdId) env db = (inl e, db)) ∧
  (∀ clientId holdId body,
     serve (route_release_hold token clientId holdId body) env db = (inl e, db)).
Proof.
  unfold serve, route_create_hold, route_list_holds, route_check_hold,
    route_get_hold, route_release_hold, require_roles, get_principal.
  destruct token as [credentials|]; cbn.
  - destruct (jwt_decode env _ _) as [payload|]; cbn; [done|].
    intros [= <-]. split; [by right|]. repeat split.
  - intros [= <-]. split; [by left|]. repeat split.
Qed.

Lemma unauthenticated_everywhere_witness :
  serve (route_release_hold (bearer "garbage") 1%N 7%N release_note) env0 db1
  = (inl (HTTPException 401 "Invalid token"), db1) ∧
  serve (route_create_hold None 1%N body0 "K1") env0 db0
  = (inl (HTTPException 401 "Missing bearer token"), db0).
Proof.
  split.
  - apply (unauthenticated_everywhere env0 db1 (bearer "garbage")
             (HTTPException 401 "Invalid token") eq_refl).
  - apply (unauthenticated_everywhere env0 db0 None
             (HTTPException 401 "Missing bearer token") eq_refl).
Defined.

(** X14: a token that carries no role -- no [roles] claim, or an empty
    one -- authenticates but opens no route: all five answer 403 and
    nothing is written. *)
Theorem no_roles_forbidden env db credentials payload :
  jwt_decode env (HTTPAuthorizationCredentials.credentials credentials) [JWT_ALG]
  = Some payload →
  Payload.roles payload = None ∨ Payload.roles payload = Some [] →
  let token := Some credentials in
  let forbidden {A} : (Exception + A) * DB :=
    (inl (HTTPException 403 "Forbidden: insufficient role"), db) in
  (∃ principal, serve (get_principal token) env db = (inr principal, db)) ∧
  (∀ clientId body idempotency_key,
     serve (route_create_hold token clientId body idempotency_key) env db
     = forbidden) ∧
  (∀ clientId status,
     serve (route_list_holds token clientId status) env db = forbidden) ∧
  (∀ clientId,
     serve (route_check_hold token clientId) env db = forbidden) ∧
  (∀ clientId holdId,
     serve (route_get_hold token clientId holdId) env db = forbidden) ∧
  (∀ clientId holdId body,
     serve (route_release_hold token clientId holdId body) env db = forbidden).
Proof.
  intros Hdec Hroles. cbv zeta.
  assert (default [] (Payload.roles payload) = []) as Hnone
    by (by destruct Hroles as [-> | ->]).
  unfold serve, route_create_hold, route_list_holds, route_check_hold,
    route_get_hold, route_release_hold, require_roles, get_principal.
  cbn. rewrite Hdec. cbn. rewrite Hnone. cbn.
  split; [by eexists|]. repeat split.
Qed.

Lemma no_roles_forbidden_witness :
  serve (route_check_hold (bearer "anon") 1%N) env0 db1
  = (inl (HTTPException 403 "Forbidden: insufficient role"), db1).
Proof.
  destruct (no_roles_forbidden env0 db1
              (HTTPAuthorizationCredentials.mk "Bearer" "anon")
              (Payload.mk None None) eq_refl (or_introl eq_refl))
    as (_ & _ & _ & Hcheck & _).
  apply Hcheck.
Defined.

(** ** Create and release, seen by [check_hold] *)

Lemma filter_all {A} (P : A → Prop) `{!∀ x, Decision (P x)} (l : list A) :
  (∀ x, x ∈ l → P x) → filter P l = l.
Proof.
  induction l as [|a l IH]; intros Hall; [done|].
  rewrite filter_cons_True by (apply Hall; left).
  f_equal. apply IH. intros x Hx. apply Hall. by right.
Qed.

Lemma unique_column_split {A K} (f : A → K) (before after : list A) (r : A) :
  NoDup (f <$> before ++ r :: after) →
  (∀ x, x ∈ before → f x ≠ f r) ∧ (∀ x, x ∈ after → f x ≠ f r).
Proof.
  rewrite fmap_app, fmap_cons. intros Hnd.
  apply NoDup_app in Hnd as (_ & Hbefore & Hafter).
  apply NoDup_cons in Hafter as [Hafter _]. split.
  - intros x Hx Heq. apply (Hbefore (f x)); [by apply list_elem_of_fmap_2|].
    rewrite Heq. left.
  - intros x Hx Heq. apply Hafter. rewrite <- Heq. by apply list_elem_of_fmap_2.
Qed.

(** X11: a hold returned by [create_hold] with status ACTIVE blocks its
    client: [check_hold] on the hold's client reports [blocked], lists the
    hold among [activeHolds], never answers NONE, and answers FRAUD when
    the hold's type is FRAUD_SUSPECT. *)
Theorem create_then_check
    env db clientId body idempotency_key principal hold db' env' principal' :
  serve (create_hold clientId body idempotency_key principal) env db
  = (inr hold, db') →
  HoldModel.status hold = "ACTIVE" →
  ∃ response,
    serve (check_hold (HoldModel.clientId hold) principal') env' db'
    = (inr response, db') ∧
    CheckResponse.blocked response = true ∧
    hold ∈ CheckResponse.activeHolds response ∧
    CheckResponse.kind response ≠ "NONE" ∧
    (HoldModel.type hold = "FRAUD_SUSPECT" →
       CheckResponse.kind response = "FRAUD").
Proof.
  intros Hcreate.
  apply create_hold_success in Hcreate as (row & -> & _ & _ & Hcase).
  assert (row ∈ payment_hold db') as Hin.
  { destruct Hcase as [[-> ?]|(-> & _)]; [done|].
    cbn. apply elem_of_app. right. left. }
  cbn. intros Hst.
  eexists. split; [unfold serve, check_hold; cbn; reflexivity|]. cbn.
  set (rows := scan env' (filter _ (payment_hold db'))).
  assert (row ∈ rows) as Hrow.
  { unfold rows. rewrite (scan_permutation env'). by apply list_elem_of_filter. }
  assert ((0 < length rows)%nat) as Hlen.
  { destruct rows; [by apply not_elem_of_nil in Hrow | cbn; lia]. }
  rewrite bool_decide_true by done.
  split; [done|]. split; [by apply (list_elem_of_fmap_2 _row_to_hold)|].
  split; [by case_bool_decide|].
  intros Hty. rewrite bool_decide_true; [done|].
  apply elem_of_list_to_set, list_elem_of_fmap. by exists row.
Qed.

Lemma create_then_check_witness :
  ∃ response,
    serve (check_hold 1%N reader) env1 db1 = (inr response, db1) ∧
    CheckResponse.blocked response = true ∧
    _row_to_hold row0 ∈ CheckResponse.activeHolds response ∧
    CheckResponse.kind response ≠ "NONE" ∧
    (HoldModel.type (_row_to_hold row0) = "FRAUD_SUSPECT" →
       CheckResponse.kind response = "FRAUD").
Proof.
  apply (create_then_check env0 db0 1%N body0 "K1" ops1 (_row_to_hold row0) db1
           env1 reader).
  - vm_compute. reflexivity.
  - reflexivity.
Defined.

(** X12: releasing a hold removes it, and nothing else, from what
    [check_hold] reports for the client: the hold was among the
    [activeHolds] before the release, and the [activeHolds] after it are,
    up to the order in which the database returns them, those of before
    without that hold. *)
Theorem release_then_check
    env db clientId holdId body principal hold db' env' principal' :
  unique_hold_ids db →
  serve (release_hold clientId holdId body principal) env db = (inr hold, db') →
  ∃ was now,
    serve (check_hold clientId principal') env' db = (inr was, db) ∧
    serve (check_hold clientId principal') env' db' = (inr now, db') ∧
    (∃ h, h ∈ CheckResponse.activeHolds was ∧ HoldModel.holdId h = holdId) ∧
    CheckResponse.activeHolds now
    ≡ₚ filter (λ h, HoldModel.holdId h ≠ holdId) (CheckResponse.activeHolds was).
Proof.
  intros Hnd Hrelease.
  apply release_hold_success in Hrelease
    as (r & before & after & Hl & Hcl & Hid & Hst & _ & ->); [|done].
  unfold unique_hold_ids in Hnd. rewrite Hl in Hnd.
  apply unique_column_split in Hnd as [Hbefore Hafter].
  eexists. eexists.
  split; [unfold serve, check_hold; cbn; reflexivity|].
  split; [unfold serve, check_hold; cbn; reflexivity|].
  cbn. rewrite Hl. split.
  - exists (_row_to_hold r). split; [|done].
    apply list_elem_of_fmap_2. rewrite (scan_permutation env').
    apply list_elem_of_filter. split; [done|].
    apply elem_of_app. right. left.
  - rewrite !(scan_permutation env'). rewrite !filter_app.
    rewrite (filter_cons_True _ r) by done.
    rewrite (filter_cons_False _ (release_row _ _ _ r)) by (cbn; by intros [_ ?]).
    rewrite !fmap_app, fmap_cons.
    rewrite filter_app.
    rewrite (filter_cons_False _ (_row_to_hold r))
      by (cbn; intros Hq; by apply Hq).
    match goal with
    | |- ?now ≡ₚ ?was => assert (now = was) as Heq; [|by rewrite Heq]
    end.
    f_equal; symmetry; apply filter_all.
    + intros h (x & -> & Hx)%list_elem_of_fmap. cbn. rewrite <- Hid.
      apply Hbefore. by apply list_elem_of_filter in Hx as [_ ?].
    + intros h (x & -> & Hx)%list_elem_of_fmap. cbn. rewrite <- Hid.
      apply Hafter. by apply list_elem_of_filter in Hx as [_ ?].
Qed.

Lemma release_then_check_witness :
  ∃ was now,
    serve (check_hold 1%N reader) env1 db2 = (inr was, db2) ∧
    serve (check_hold 1%N reader) env1 db2_released = (inr now, db2_released) ∧
    (∃ h, h ∈ CheckResponse.activeHolds was ∧ HoldModel.holdId h = 7%N) ∧
    CheckResponse.activeHolds now
    ≡ₚ filter (λ h, HoldModel.holdId h ≠ 7%N) (CheckResponse.activeHolds was).
Proof.
  apply (release_then_check env0 db2 1%N 7%N release_note ops1
           (_row_to_hold row_released) db2_released env1 reader).
  - vm_compute. apply NoDup_cons. split; [|apply NoDup_singleton].
    intros Hin. apply list_elem_of_singleton in Hin. discriminate.
  - vm_compute. reflexivity.
Defined.

(** ** Two releases racing on one hold *)

(** X13: the UPDATE of [release_hold] selects by identifier alone, not by
    status.  When the lookup saw the hold ACTIVE, the release goes through
    on whatever the row is at the time of the UPDATE: a release committed
    by another session in between is not answered with 409 but
    overwritten, with the [releasedAt], [releasedBy] and [releaseReason]
    of the later request. *)
Theorem release_race_overwrites
    env before_sel before_upd db clientId holdId body principal r r' :
  let db_sel := before_sel db in
  let db_upd := before_upd db_sel in
  unique_hold_ids db_sel →
  unique_hold_ids db_upd →
  r ∈ payment_hold db_sel →
  Row.client_id r = clientId → Row.hold_id r = holdId →
  Row.status r = "ACTIVE" →
  r' ∈ payment_hold db_upd →
  Row.hold_id r' = holdId →
  ∃ before after,
    payment_hold db_upd = before ++ r' :: after ∧
    let released :=
      Row.mk (Row.hold_id r') (Row.client_id r') (Row.type r') "RELEASED"
        (Row.comment r') (Row.source r') (Row.created_at r')
        (Row.created_by r') (Row.expires_at r')
        (Some (db_clock env)) (Some (Principal.sub principal))
        (reason_of body) (Row.idempotency_key r') in
    run (release_hold clientId holdId body principal) env
      [before_sel; before_upd] db db
    = (inr (_row_to_hold released),
       mkDB (client db_upd) (before ++ released :: after)).
Proof.
  cbv zeta. intros Hsel Hupd Hin <- <- Hst Hin' Hid'.
  destruct (q_upd_unique (db_clock env) (Principal.sub principal)
              (reason_of body) (payment_hold (before_upd (before_sel db)))
              r' Hupd Hin')
    as (before & after & Hl & Hmap & Hret).
  cbv zeta in Hmap, Hret. unfold reason_of in Hmap, Hret.
  exists before, after. split; [done|].
  unfold release_hold. cbn.
  rewrite q_sel_unique by done. cbn.
  rewrite bool_decide_false by (by intros []). cbn.
  rewrite <- Hid', Hret, Hmap. done.
Qed.

Lemma release_race_overwrites_witness :
  ∃ before after,
    payment_hold (other_release db1) = before ++ row_released :: after ∧
    run (release_hold 1%N 7%N late_release ops2) env1 [id; other_release] db1 db1
    = (inr (_row_to_hold row_released_late),
       mkDB (client (other_release db1)) (before ++ row_released_late :: after)).
Proof.
  apply (release_race_overwrites env1 id other_release db1 1%N 7%N late_release
           ops2 row0 row_released).
  - vm_compute. apply NoDup_singleton.
  - vm_compute. apply NoDup_singleton.
  - left.
  - reflexivity.
  - reflexivity.
  - reflexivity.
  - vm_compute. left.
  - reflexivity.
Defined.

(** ** Reading after a release, and the listings together *)

(** X15: the hold a release returns is what [get_hold] then returns for
    the same client and identifier, for any reader and at any later
    clock. *)
Theorem release_then_get
    env db clientId holdId body principal hold db' env' principal' :
  unique_hold_ids db →
  serve (release_hold clientId holdId body principal) env db = (inr hold, db') →
  serve (get_hold clientId holdId principal') env' db' = (inr hold, db').
Proof.
  intros Hnd Hrelease.
  apply release_hold_success in Hrelease
    as (r & before & after & Hl & <- & <- & Hst & -> & ->); [|done].
  set (released := release_row (db_clock env) (Principal.sub principal)
                     (reason_of body) r).
  apply (serve_get_hold_found env' _ principal' released).
  - unfold unique_hold_ids. cbn. unfold released.
    rewrite release_keeps_hold_ids, <- Hl. exact Hnd.
  - cbn. apply elem_of_app. right. left.
Qed.

Lemma release_then_get_witness :
  serve (get_hold 1%N 7%N reader) env1 db2_released
  = (inr (_row_to_hold row_released), db2_released).
Proof.
  apply (release_then_get env0 db2 1%N 7%N release_note ops1
           (_row_to_hold row_released) db2_released env1 reader).
  - vm_compute. apply NoDup_cons. split; [|apply NoDup_singleton].
    intros Hin. apply list_elem_of_singleton in Hin. discriminate.
  - vm_compute. reflexivity.
Defined.

Lemma filter_by_status (clientId : UUID) (l : list Row.t) :
  Forall (λ r, Row.status r = "ACTIVE" ∨ Row.status r = "RELEASED") l →
  filter (λ r, Row.client_id r = clientId) l
  ≡ₚ filter (λ r, Row.client_id r = clientId ∧ Row.status r = "ACTIVE") l
     ++ filter (λ r, Row.client_id r = clientId ∧ Row.status r = "RELEASED") l.
Proof.
  induction 1 as [|r l Hst _ IH]; [done|].
  rewrite !filter_cons. destruct (decide (Row.client_id r = clientId)) as [Hcl|Hcl].
  - destruct Hst as [Hst|Hst].
    + rewrite decide_True by done.
      rewrite decide_False by (rewrite Hst; by intros [_ ?]).
      cbn. by rewrite IH.
    + rewrite decide_False by (rewrite Hst; by intros [_ ?]).
      rewrite decide_True by done.
      rewrite IH. apply Permutation_middle.
  - rewrite !decide_False by (by intros [? _]). exact IH.
Qed.

(** X16: the three listings of a client fit together.  In a reachable
    database the ALL listing is, up to order, the ACTIVE listing followed
    by the RELEASED listing: every hold of the client is in exactly one of
    the two. *)
Theorem list_holds_partition env db clientId principal :
  reachable db →
  ∃ all active released,
    serve (list_holds clientId "ALL" principal) env db = (inr all, db) ∧
    serve (list_holds clientId "ACTIVE" principal) env db = (inr active, db) ∧
    serve (list_holds clientId "RELEASED" principal) env db = (inr released, db) ∧
    ListResponse.items all
    ≡ₚ ListResponse.items active ++ ListResponse.items released.
Proof.
  intros Hreach.
  assert (Forall (λ r, Row.status r = "ACTIVE" ∨ Row.status r = "RELEASED")
            (payment_hold db)) as Hst.
  { eapply Forall_impl; [by apply reachable_release_columns|].
    intros r [(? & _)|(? & _)]; [by left|by right]. }
  do 3 eexists.
  split; [unfold serve, list_holds; cbn; reflexivity|].
  split; [unfold serve, list_holds; cbn; reflexivity|].
  split; [unfold serve, list_holds; cbn; reflexivity|].
  cbn. unfold order_by_created_at_desc.
  rewrite <- fmap_app. apply fmap_Permutation.
  rewrite !merge_sort_Permutation, !(scan_permutation env).
  by apply filter_by_status.
Qed.

Lemma list_holds_partition_witness :
  ∃ all active released,
    serve (list_holds 1%N "ALL" reader) env1 db_released_without_body
    = (inr all, db_released_without_body) ∧
    serve (list_holds 1%N "ACTIVE" reader) env1 db_released_without_body
    = (inr active, db_released_without_body) ∧
    serve (list_holds 1%N "RELEASED" reader) env1 db_released_without_body
    = (inr released, db_released_without_body) ∧
    ListResponse.items all
    ≡ₚ ListResponse.items active ++ ListResponse.items released.
Proof.
  apply (list_holds_partition env1 db_released_without_body 1%N reader).
  apply reachable_db_released_without_body.
Defined.

(** X17: [check_hold] and the ACTIVE listing agree: the [activeHolds] of a
    check are, up to order, the items [list_holds] returns for ACTIVE, and
    [blocked] holds exactly when that listing is not empty. *)
Theorem check_agrees_with_list env db clientId principal principal' :
  ∃ checked listed,
    serve (check_hold clientId principal) env db = (inr checked, db) ∧
    serve (list_holds clientId "ACTIVE" principal') env db = (inr listed, db) ∧
    CheckResponse.activeHolds checked ≡ₚ ListResponse.items listed ∧
    (CheckResponse.blocked checked = true ↔ ListResponse.items listed ≠ []).
Proof.
  do 2 eexists.
  split; [unfold serve, check_hold; cbn; reflexivity|].
  split; [unfold serve, list_holds; cbn; reflexivity|].
  cbn. unfold order_by_created_at_desc.
  set (rows := scan env (filter _ (payment_hold db))).
  assert (_row_to_hold <$> rows
          ≡ₚ _row_to_hold <$> merge_sort created_at_desc rows) as Hperm
    by (apply fmap_Permutation; by rewrite merge_sort_Permutation).
  split; [done|].
  rewrite bool_decide_eq_true. split.
  - intros Hlen Hnil. rewrite Hnil in Hperm.
    apply Permutation_nil_r in Hperm. apply fmap_nil_inv in Hperm.
    rewrite Hperm in Hlen. cbn in Hlen. lia.
  - intros Hne. destruct rows; [|cbn; lia]. by destruct Hne.
Qed.

(** ** A key, once used *)

Lemma release_hold_keeps_unique env db clientId holdId body principal :
  let db' := (serve (release_hold clientId holdId body principal) env db).2 in
  (unique_hold_ids db → unique_hold_ids db') ∧
  (unique_idempotency_keys db → unique_idempotency_keys db').
Proof.
  cbv zeta. unfold unique_hold_ids, unique_idempotency_keys.
  destruct (release_hold_effect env db clientId holdId body principal)
    as [->| ->]; [done|].
  cbn. rewrite <- !list_fmap_compose.
  split; intros Hnd.
  - erewrite list_fmap_ext; [exact Hnd|].
    intros i x _. cbn. by case_bool_decide.
  - erewrite list_fmap_ext; [exact Hnd|].
    intros i x _. cbn. by case_bool_decide.
Qed.

(** Whatever happens later, the key stays unique and a row keeps its
    creation columns. *)
Lemma later_keeps_row db db' row :
  later db db' →
  unique_idempotency_keys db →
  row ∈ payment_hold db →
  unique_idempotency_keys db' ∧
  ∃ row', row' ∈ payment_hold db' ∧
          immutable_columns row' = immutable_columns row.
Proof.
  intros Hlater Hnd Hin.
  induction Hlater as [|db' env clientId body ik principal _ [IHnd IHrow]
                       |db' env clientId holdId body principal _ [IHnd IHrow]].
  - split; [done|]. by exists row.
  - split; [by apply create_hold_keeps_unique|].
    destruct IHrow as (row' & Hin' & Hcols). exists row'. split; [|done].
    destruct (create_hold_effect env db' clientId body ik principal)
      as [->|(r & _ & _ & _ & ->)]; [done|].
    cbn. apply elem_of_app. by left.
  - split; [by apply release_hold_keeps_unique|].
    destruct IHrow as (row' & Hin' & Hcols).
    destruct (release_hold_effect env db' clientId holdId body principal)
      as [->| ->]; [by exists row'|].
    eexists. split; [cbn; by apply list_elem_of_fmap_2|].
    rewrite <- Hcols. by case_bool_decide.
Qed.

(** X18: a key, once it has produced a hold, never produces another one.
    After a create has returned a hold, and after any number of further
    creates and releases, a valid create with the same key writes nothing
    and returns a hold with the same identifier, client, type, comment,
    source, creation stamp, creator, expiry and key; only the status and
    the three release fields may have changed since (the hold may have
    been released in between). *)
Theorem create_hold_replay_later
    env db clientId body idempotency_key principal hold db' db''
    env' clientId' body' principal' :
  unique_idempotency_keys db →
  serve (create_hold clientId body idempotency_key principal) env db
  = (inr hold, db') →
  later db' db'' →
  expiry_in_future env' body' →
  clientId' ∈ client db'' →
  ∃ hold',
    serve (create_hold clientId' body' idempotency_key principal') env' db''
    = (inr hold', db'') ∧
    HoldModel.holdId hold' = HoldModel.holdId hold ∧
    HoldModel.clientId hold' = HoldModel.clientId hold ∧
    HoldModel.type hold' = HoldModel.type hold ∧
    HoldModel.comment hold' = HoldModel.comment hold ∧
    HoldModel.source hold' = HoldModel.source hold ∧
    HoldModel.createdAt hold' = HoldModel.createdAt hold ∧
    HoldModel.createdBy hold' = HoldModel.createdBy hold ∧
    HoldModel.expiresAt hold' = HoldModel.expiresAt hold ∧
    HoldModel.idempotencyKey hold' = HoldModel.idempotencyKey hold.
Proof.
  intros Hnd Hfirst Hlater Hexp Hcl.
  pose proof (create_hold_keeps_unique env db clientId body idempotency_key
                principal) as [_ Hkeep].
  rewrite Hfirst in Hkeep. cbn in Hkeep. specialize (Hkeep Hnd).
  apply create_hold_success in Hfirst as (row & -> & Hkey & _ & Hcase).
  assert (row ∈ payment_hold db') as Hin.
  { destruct Hcase as [[-> ?]|(-> & _)]; [done|].
    cbn. apply elem_of_app. right. left. }
  destruct (later_keeps_row db' db'' row Hlater Hkeep Hin)
    as (Hnd'' & row' & Hin' & Hcols).
  injection Hcols as Hid Hclient Htype Hcomment Hsource Hat Hby Hexpires Hik.
  exists (_row_to_hold row'). split; [|by cbn].
  apply serve_create_hold_taken; try done. congruence.
Qed.

Lemma create_hold_replay_later_witness :
  ∃ hold',
    serve (create_hold 2%N body_other "K1" ops2) env1 db_released_without_body
    = (inr hold', db_released_without_body) ∧
    HoldModel.holdId hold' = 7%N ∧
    HoldModel.clientId hold' = 1%N ∧
    HoldModel.type hold' = "FRAUD_SUSPECT" ∧
    HoldModel.comment hold' = Some "card testing" ∧
    HoldModel.source hold' = None ∧
    HoldModel.createdAt hold' = 1001 ∧
    HoldModel.createdBy hold' = "user:ops1" ∧
    HoldModel.expiresAt hold' = Some (aware 2000) ∧
    HoldModel.idempotencyKey hold' = "K1".
Proof.
  apply (create_hold_replay_later env0 db0 1%N body0 "K1" ops1
           (_row_to_hold row0) db1 db_released_without_body
           env1 2%N body_other ops2).
  - vm_compute. apply NoDup_nil_2.
  - vm_compute. reflexivity.
  - unfold db_released_without_body.
    apply (later_release db1 db1 env0 1%N 7%N None ops1), later_now.
  - intros e [= <-]. eexists. split; [reflexivity|]. vm_compute. reflexivity.
  - right. left.
Defined.

(** X19: served on its own, [create_hold] never runs into the unique
    constraint on the idempotency key nor into the foreign key to
    [client]: its lookup and its client check come before the INSERT.
    Those violations need another session to commit between two
    statements of the request. *)
Theorem create_hold_alone_never_violates
    env db clientId body idempotency_key principal :
  let result := serve (create_hold clientId body idempotency_key principal) env db in
  result.1 ≠ inl (IntegrityError payment_hold_idempotency_key_key) ∧
  result.1 ≠ inl (IntegrityError payment_hold_client_fkey).
Proof.
  cbv zeta. unfold serve, create_hold.
  destruct (CreateHoldBody.expiresAt body) as [[e|e]|]; cbn;
    [case_bool_decide; cbn; [done|] |done |].
  all: rewrite scalar_q_exists; case_bool_decide as Hcl; cbn; [|done].
  all: rewrite first_take_1.
  all: destruct (first _) as [row|] eqn:Hrow; cbn; [done|].
  all: case_bool_decide as Hid; cbn; [done|].
  all: rewrite bool_decide_false; cbn.
  all: try rewrite bool_decide_false by (by intros []); cbn; try done.
  all: intros (r & Hkey & Hin)%list_elem_of_fmap.
  all: by apply (proj1 (first_filter_None _ _) Hrow r).
Qed.
